(** * RSVPSystem-Flask: the form validator and the CSV record store of [app.py]

    A shallow embedding of [validate_form], [ensure_csv], [read_rsvps],
    [write_rsvp], [index], [submit], [list_rsvps] and [download_rsvps],
    together with the parts
    of the Python runtime they call ([str.strip], [re.match], [int], [str],
    [list.sort], the [csv] writer and reader, text files).

    Conventions.
    - A Python [str] is a [string]; a character is a code point below 256.
      The character classes of Python are given on that range.
    - A Python exception is a value of [exn]; code that can raise returns
      a [result].
    - The file at [DATA_PATH] is the whole mutable state: [None] when the
      file does not exist, [Some text] when it does. *)

From Stdlib Require Import ZArith Ascii DecimalString Permutation Sorted.
From stdpp Require Import gmap strings list.

Local Open Scope Z_scope.
Set Warnings "-clear-no-such-hyp".

(** ** Exceptions and results *)

Inductive exn : Type :=
  | ValueError
  | KeyError (key : string)
  | TypeError
  | CsvError
  | FileNotFoundError
  | HTTPException (code : nat) (description : string).

Inductive result (A : Type) : Type :=
  | Ok (a : A)
  | Raise (e : exn).

Arguments Ok {A} a.
Arguments Raise {A} e.

Definition rbind {A B : Type} (r : result A) (k : A -> result B) : result B :=
  match r with
  | Ok a => k a
  | Raise e => Raise e
  end.

Global Instance result_ret : MRet result := @Ok.
Global Instance result_bind : MBind result := fun A B k r => rbind r k.

Definition is_value_error (e : exn) : bool :=
  match e with
  | ValueError => true
  | _ => false
  end.

(** [try: body  except ValueError: handler] *)
Definition try_except_ValueError {A : Type} (body handler : result A) : result A :=
  match body with
  | Ok a => Ok a
  | Raise e => if is_value_error e then handler else Raise e
  end.

(** ** Characters and strings of the Python runtime *)

Module Py.

Definition code (c : ascii) : nat := nat_of_ascii c.

Definition between (lo hi n : nat) : bool := (lo <=? n)%nat && (n <=? hi)%nat.

(** [Py_UNICODE_ISSPACE]: what [str.strip], [str.isspace] and the regular
    expression class [\s] use. *)
Definition is_space (c : ascii) : bool :=
  between 9 13 (code c) || between 28 32 (code c)
  || (code c =? 133)%nat || (code c =? 160)%nat.

(** [Py_ISSPACE]: the C-locale white space that [PyLong_FromString] skips. *)
Definition is_c_space (c : ascii) : bool :=
  between 9 13 (code c) || (code c =? 32)%nat.

Definition LF : ascii := ascii_of_nat 10.
Definition CR : ascii := ascii_of_nat 13.
Definition DQUOTE : ascii := ascii_of_nat 34.

Fixpoint str_all (p : ascii -> bool) (s : string) : bool :=
  match s with
  | EmptyString => true
  | String c t => p c && str_all p t
  end.

Fixpoint str_any (p : ascii -> bool) (s : string) : bool :=
  match s with
  | EmptyString => false
  | String c t => p c || str_any p t
  end.

Definition is_empty (s : string) : bool :=
  match s with
  | EmptyString => true
  | String _ _ => false
  end.

(** *** [str.strip()] *)

Fixpoint lstrip (s : string) : string :=
  match s with
  | EmptyString => EmptyString
  | String c t => if is_space c then lstrip t else s
  end.

Fixpoint rstrip (s : string) : string :=
  match s with
  | EmptyString => EmptyString
  | String c t =>
      match rstrip t with
      | EmptyString => if is_space c then EmptyString else String c EmptyString
      | String d u => String c (String d u)
      end
  end.

(** [do_strip] scans the left end first, then the right end of what is
    left. *)
Definition strip (s : string) : string := rstrip (lstrip s).

(** *** [int(str)]

    [PyLong_FromUnicodeObject] first maps every white space character above
    ASCII to a blank and every decimal digit above ASCII to its ASCII digit
    ([_PyUnicode_TransformDecimalAndSpaceToASCII]); an ASCII string is kept
    as it is. Below code point 256 no character from 127 on is a decimal
    digit, so such a character becomes a question mark and cuts the buffer
    there. *)
Definition is_ascii (s : string) : bool := str_all (fun c => (code c <? 128)%nat) s.

Fixpoint transform_decimal_and_space (s : string) : string :=
  match s with
  | EmptyString => EmptyString
  | String c t =>
      if (code c <? 127)%nat then String c (transform_decimal_and_space t)
      else if is_space c then String " "%char (transform_decimal_and_space t)
      else String "?"%char EmptyString
  end.

Definition to_ascii_buffer (s : string) : string :=
  if is_ascii s then s else transform_decimal_and_space s.

Fixpoint skip_c_space (s : string) : string :=
  match s with
  | EmptyString => EmptyString
  | String c t => if is_c_space c then skip_c_space t else s
  end.

Definition digit_value (c : ascii) : option Z :=
  if between 48 57 (code c) then Some (Z.of_nat (code c - 48)) else None.

(** The digit loop of [PyLong_FromString] in base 10: digits with single
    underscores between them. It returns the value, the number of digits
    and the rest of the buffer, or [None] on a doubled or trailing
    underscore. *)
Fixpoint scan_digits (s : string) (prev_underscore : bool) (acc : Z) (digits : nat)
  : option (Z * nat * string) :=
  match s with
  | EmptyString => if prev_underscore then None else Some (acc, digits, s)
  | String c t =>
      if Ascii.eqb c "_"
      then (if prev_underscore then None else scan_digits t true acc digits)
      else match digit_value c with
           | Some d => scan_digits t false (10 * acc + d) (S digits)
           | None => if prev_underscore then None else Some (acc, digits, s)
           end
  end.

Definition starts_with (c : ascii) (s : string) : bool :=
  match s with
  | String d _ => Ascii.eqb d c
  | EmptyString => false
  end.

Definition tail (s : string) : string :=
  match s with
  | String _ t => t
  | EmptyString => EmptyString
  end.

Section Int.

(** [sys.get_int_max_str_digits()]: 0 switches the limit off, any other
    value is at least the threshold 640 (4300 by default since 3.11). *)
Variable int_max_str_digits : nat.

Definition too_many_digits (digits : nat) : bool :=
  (640 <? digits)%nat && (0 <? int_max_str_digits)%nat
  && (int_max_str_digits <? digits)%nat.

Definition int (s : string) : result Z :=
  let buf := skip_c_space (to_ascii_buffer s) in
  let negative := starts_with "-" buf in
  let buf := if starts_with "+" buf || negative then tail buf else buf in
  if starts_with "_" buf then Raise ValueError
  else
    match scan_digits buf false 0 0 with
    | None => Raise ValueError
    | Some (v, digits, rest) =>
        if too_many_digits digits then Raise ValueError
        else if (digits =? 0)%nat then Raise ValueError
        else if is_empty (skip_c_space rest)
             then Ok (if negative then - v else v)
             else Raise ValueError
    end.

End Int.

(** [str(int)] *)
Definition str (z : Z) : string := NilZero.string_of_int (Z.to_int z).

(** [a or b] on an optional string: [None] and the empty string are
    false. *)
Definition or_else (a : option string) (b : string) : string :=
  match a with
  | Some (String c t) => String c t
  | Some EmptyString => b
  | None => b
  end.

End Py.

(** ** Regular expressions, as [sre_parse] reads the pattern of the form *)

Module Re.

Inductive set_item : Type :=
  | Literal (c : ascii)
  | CategorySpace.

Inductive atom : Type :=
  | Char (c : ascii)
  | NotIn (items : list set_item).

Inductive node : Type :=
  | AtBeginning
  | AtEnd
  | One (a : atom)
  | MaxRepeat1 (a : atom).

Definition item_has (c : ascii) (i : set_item) : bool :=
  match i with
  | Literal d => Ascii.eqb c d
  | CategorySpace => Py.is_space c
  end.

Definition atom_ok (a : atom) (c : ascii) : bool :=
  match a with
  | Char d => Ascii.eqb c d
  | NotIn items => negb (existsb (item_has c) items)
  end.

(** [$] without [re.MULTILINE]: at the end, or before a line feed that is
    the last character. *)
Definition at_end (s : string) : bool :=
  match s with
  | EmptyString => true
  | String c EmptyString => Ascii.eqb c Py.LF
  | String _ (String _ _) => false
  end.

(** [run p at0 s]: the pattern [p] matches a prefix of [s]; [at0] says
    whether [s] starts at position 0 of the subject. *)
Fixpoint run (p : list node) : bool -> string -> bool :=
  match p with
  | [] => fun _ _ => true
  | AtBeginning :: q => fun at0 s => at0 && run q at0 s
  | AtEnd :: q => fun at0 s => at_end s && run q at0 s
  | One a :: q => fun _ s =>
      match s with
      | EmptyString => false
      | String c t => atom_ok a c && run q false t
      end
  | MaxRepeat1 a :: q =>
      fix more (at0 : bool) (s : string) {struct s} : bool :=
        match s with
        | EmptyString => false
        | String c t => atom_ok a c && (more false t || run q false t)
        end
  end.

(** [re.match(pattern, s)] as a truth value *)
Definition re_match (p : list node) (s : string) : bool := run p true s.

End Re.


(** ** [list.sort] *)

Module PyList.

Section Sort.
Context {A : Type} (lt : A -> A -> bool).

(** [x] stood before every item of [l] and stays before the items it is
    not greater than. *)
Fixpoint insert_front (x : A) (l : list A) : list A :=
  match l with
  | [] => [x]
  | y :: l' => if lt y x then y :: insert_front x l' else x :: y :: l'
  end.

(** A stable sort that asks for [<] only, as [list.sort] does. *)
Fixpoint stable_sort (l : list A) : list A :=
  match l with
  | [] => []
  | x :: l' => insert_front x (stable_sort l')
  end.

(** [list.sort(reverse=...)]: for a reverse sort the list is reversed,
    sorted and reversed again, which keeps equal items in their
    order. *)
Definition sort (reverse : bool) (l : list A) : list A :=
  if reverse then rev (stable_sort (rev l)) else stable_sort l.
End Sort.

End PyList.

(** ** Text files *)

Module TextIO.

(** Reading a file opened with the default [newline=None]: a carriage
    return with or without a line feed after it comes out as one line
    feed. *)
Fixpoint universal_newlines (s : string) : string :=
  match s with
  | EmptyString => EmptyString
  | String c t =>
      if Ascii.eqb c Py.CR then
        String Py.LF
          match t with
          | EmptyString => EmptyString
          | String d u => if Ascii.eqb d Py.LF then universal_newlines u
                          else universal_newlines t
          end
      else String c (universal_newlines t)
  end.

(** Iterating over a text file: the lines, each with its line feed. *)
Fixpoint split_lines (s : string) : list string :=
  match s with
  | EmptyString => []
  | String c t =>
      if Ascii.eqb c Py.LF then String c EmptyString :: split_lines t
      else match split_lines t with
           | [] => [String c EmptyString]
           | l :: ls => String c l :: ls
           end
  end.

End TextIO.

(** ** The [csv] module with its default dialect

    Delimiter comma, quote character double quote, [doublequote] on,
    [skipinitialspace] off, [strict] off, [QUOTE_MINIMAL], no escape
    character, line terminator CR LF. *)

Module Csv.

Definition DELIMITER : ascii := ",".
Definition LINETERMINATOR : string := String Py.CR (String Py.LF EmptyString).

(** [csv.field_size_limit()] *)
Definition FIELD_LIMIT : N := 131072.

(** *** Writer *)

(** The characters that make [join_append_data] quote a field. *)
Definition special (c : ascii) : bool :=
  Ascii.eqb c DELIMITER || Ascii.eqb c Py.DQUOTE || Ascii.eqb c Py.CR || Ascii.eqb c Py.LF.

Fixpoint double_quotes (s : string) : string :=
  match s with
  | EmptyString => EmptyString
  | String c t =>
      if Ascii.eqb c Py.DQUOTE then String c (String c (double_quotes t))
      else String c (double_quotes t)
  end.

Definition join_append (field : string) : string :=
  if Py.str_any special field
  then String Py.DQUOTE (double_quotes field +:+ String Py.DQUOTE EmptyString)
  else field.

Fixpoint join (fields : list string) : string :=
  match fields with
  | [] => EmptyString
  | [f] => join_append f
  | f :: fs => join_append f +:+ String DELIMITER (join fs)
  end.

(** [writer.writerow]: a record that is one empty field is written as a
    pair of quotes. *)
Definition writerow (fields : list string) : string :=
  let rec := join fields in
  let rec :=
    if (0 <? length fields)%nat && Py.is_empty rec
    then String Py.DQUOTE (String Py.DQUOTE EmptyString) else rec in
  rec +:+ LINETERMINATOR.

(** [DictWriter._dict_to_list] with [extrasaction="raise"] and
    [restval=""] *)
Definition dict_to_list (fieldnames : list string) (rowdict : gmap string string)
  : result (list string) :=
  if bool_decide (dom rowdict ⊆ list_to_set fieldnames)
  then Ok (map (fun key => default EmptyString (rowdict !! key)) fieldnames)
  else Raise ValueError.

Definition dict_writerow (fieldnames : list string) (rowdict : gmap string string)
  : result string :=
  fields ← dict_to_list fieldnames rowdict;
  Ok (writerow fields).

(** [DictWriter.writeheader]: the row that maps each field name to
    itself. *)
Definition dict_writeheader (fieldnames : list string) : result string :=
  dict_writerow fieldnames (list_to_map (zip fieldnames fieldnames)).

(** *** Reader: the state machine of [_csv.c] *)

Inductive state : Type :=
  | START_RECORD
  | START_FIELD
  | IN_FIELD
  | IN_QUOTED_FIELD
  | QUOTE_IN_QUOTED_FIELD
  | EAT_CRNL.

Global Instance state_eq_dec : EqDecision state.
Proof. solve_decision. Defined.

Record parser : Type := Parser {
  st : state;
  fields : list string;
  field : string
}.

(** A character of the line, or the end of line mark the reader feeds
    after each line. *)
Inductive input : Type :=
  | Chr (c : ascii)
  | EOL.

Definition parse_reset : parser := Parser START_RECORD [] EmptyString.

Definition set_state (p : parser) (s : state) : parser :=
  Parser s (fields p) (field p).

Definition parse_save_field (p : parser) : parser :=
  Parser (st p) (fields p ++ [field p]) EmptyString.

Definition parse_add_char (p : parser) (c : ascii) : result parser :=
  if (FIELD_LIMIT <=? N.of_nat (String.length (field p)))%N then Raise CsvError
  else Ok (Parser (st p) (fields p) (field p +:+ String c EmptyString)).

Definition is_newline (c : ascii) : bool := Ascii.eqb c Py.LF || Ascii.eqb c Py.CR.

(** After a field has ended at a line break or at the end of line
    mark. *)
Definition end_of_line (p : parser) (c : input) : parser :=
  set_state (parse_save_field p)
    match c with
    | EOL => START_RECORD
    | Chr _ => EAT_CRNL
    end.

Definition start_field (p : parser) (c : input) : result parser :=
  match c with
  | EOL => Ok (end_of_line p c)
  | Chr ch =>
      if is_newline ch then Ok (end_of_line p c)
      else if Ascii.eqb ch Py.DQUOTE then Ok (set_state p IN_QUOTED_FIELD)
      else if Ascii.eqb ch DELIMITER then Ok (parse_save_field p)
      else p' ← parse_add_char p ch; Ok (set_state p' IN_FIELD)
  end.

Definition parse_process_char (p : parser) (c : input) : result parser :=
  match st p with
  | START_RECORD =>
      match c with
      | EOL => Ok p
      | Chr ch =>
          if is_newline ch then Ok (set_state p EAT_CRNL)
          else start_field (set_state p START_FIELD) c
      end
  | START_FIELD => start_field p c
  | IN_FIELD =>
      match c with
      | EOL => Ok (end_of_line p c)
      | Chr ch =>
          if is_newline ch then Ok (end_of_line p c)
          else if Ascii.eqb ch DELIMITER
               then Ok (set_state (parse_save_field p) START_FIELD)
               else parse_add_char p ch
      end
  | IN_QUOTED_FIELD =>
      match c with
      | EOL => Ok p
      | Chr ch =>
          if Ascii.eqb ch Py.DQUOTE then Ok (set_state p QUOTE_IN_QUOTED_FIELD)
          else parse_add_char p ch
      end
  | QUOTE_IN_QUOTED_FIELD =>
      match c with
      | EOL => Ok (end_of_line p c)
      | Chr ch =>
          if Ascii.eqb ch Py.DQUOTE
          then p' ← parse_add_char p ch; Ok (set_state p' IN_QUOTED_FIELD)
          else if Ascii.eqb ch DELIMITER
               then Ok (set_state (parse_save_field p) START_FIELD)
               else if is_newline ch then Ok (end_of_line p c)
                    else p' ← parse_add_char p ch; Ok (set_state p' IN_FIELD)
      end
  | EAT_CRNL =>
      match c with
      | EOL => Ok (set_state p START_RECORD)
      | Chr ch => if is_newline ch then Ok p else Raise CsvError
      end
  end.

Fixpoint feed_chars (p : parser) (line : string) : result parser :=
  match line with
  | EmptyString => Ok p
  | String c t => p' ← parse_process_char p (Chr c); feed_chars p' t
  end.

Definition feed_line (p : parser) (line : string) : result parser :=
  p' ← feed_chars p line; parse_process_char p' EOL.

(** [list(csv.reader(lines))]. A record ends with the line after which
    the state is [START_RECORD]; input that ends inside a record gives
    what was read of it. *)
Fixpoint read_records (p : parser) (lines : list string) : result (list (list string)) :=
  match lines with
  | [] =>
      if negb (Py.is_empty (field p)) || bool_decide (st p = IN_QUOTED_FIELD)
      then Ok [fields (parse_save_field p)]
      else Ok []
  | line :: rest =>
      p' ← feed_line p line;
      if bool_decide (st p' = START_RECORD)
      then records ← read_records parse_reset rest; Ok (fields p' :: records)
      else read_records p' rest
  end.

Definition reader (lines : list string) : result (list (list string)) :=
  read_records parse_reset lines.

(** *** DictReader *)

(** A row of [csv.DictReader]: the values under the field names, [None]
    for a field the line is too short for, and under the key [None]
    ([restkey]) the values a line has beyond the field names. *)
Record row : Type := Row {
  cells : gmap string (option string);
  restkey : option (list string)
}.

(** [dict(zip(fieldnames, values))]: a later pair wins. *)
Definition dict_zip (fieldnames values : list string) : gmap string (option string) :=
  foldl (fun d kv => <[kv.1 := Some kv.2]> d) ∅ (zip fieldnames values).

Definition make_row (fieldnames values : list string) : row :=
  let d := dict_zip fieldnames values in
  let lf := length fieldnames in
  let lr := length values in
  if (lf <? lr)%nat then Row d (Some (drop lf values))
  else if (lr <? lf)%nat
       then Row (foldl (fun d key => <[key := None]> d) d (drop lr fieldnames)) None
       else Row d None.

Definition is_blank (values : list string) : bool :=
  match values with
  | [] => true
  | _ :: _ => false
  end.

(** [list(csv.DictReader(lines))]: the first record gives the field
    names, blank records are skipped. *)
Definition dict_reader (lines : list string) : result (list row) :=
  records ← reader lines;
  match records with
  | [] => Ok []
  | fieldnames :: data =>
      Ok (map (make_row fieldnames) (filter (fun r => is_blank r = false) data))
  end.

End Csv.

(** ** Computations on the data file

    The state is the text of the file at [DATA_PATH], [None] when there is
    no such file. A raised exception leaves the state as it was when it was
    raised. *)

Definition M (A : Type) : Type := option string -> result A * option string.

Definition ret_M {A : Type} (a : A) : M A := fun fs => (Ok a, fs).

Definition bind_M {A B : Type} (m : M A) (k : A -> M B) : M B :=
  fun fs =>
    match m fs with
    | (Ok a, fs') => k a fs'
    | (Raise e, fs') => (Raise e, fs')
    end.

Definition lift {A : Type} (r : result A) : M A := fun fs => (r, fs).

Notation "x <- m ;; k" := (bind_M m (fun x => k))
  (at level 100, m at next level, right associativity).

Module File.

(** [Path.exists()] *)
Definition exists_ : M bool := fun fs => (Ok (bool_decide (is_Some fs)), fs).

(** [with path.open("w", newline="") as f: f.write(body)]: the file is
    created or emptied when it is opened, and written without any
    translation of line ends. *)
Definition with_open_w (body : result string) : M unit :=
  fun _ =>
    match body with
    | Ok text => (Ok tt, Some text)
    | Raise e => (Raise e, Some EmptyString)
    end.

(** [with path.open("a", newline="") as f: f.write(body)] *)
Definition with_open_a (body : result string) : M unit :=
  fun fs =>
    let old := default EmptyString fs in
    match body with
    | Ok text => (Ok tt, Some (old +:+ text))
    | Raise e => (Raise e, Some old)
    end.

(** [with path.open() as f: body(f)], where the body iterates over the
    lines of the file *)
Definition with_open_r {A : Type} (body : list string -> result A) : M A :=
  fun fs =>
    match fs with
    | Some text => (body (TextIO.split_lines (TextIO.universal_newlines text)), fs)
    | None => (Raise FileNotFoundError, fs)
    end.

(** The bytes of the file, as [send_file] serves them. *)
Definition contents : M string :=
  fun fs =>
    match fs with
    | Some text => (Ok text, fs)
    | None => (Raise FileNotFoundError, fs)
    end.

End File.

(** ** What a request handler returns *)

Inductive context : Type :=
  | IndexPage (errors form_data : option (gmap string string))
  | ThanksPage (rsvp : gmap string string)
  | RsvpsPage (rows : list Csv.row) (totals : gmap string Z).

Inductive response : Type :=
  | RenderTemplate (template : string) (ctx : context) (status : nat)
  | SendFile (data : string) (mimetype : string) (download_name : string).

(** [abort(code, description=...)] *)
Definition abort {A : Type} (code : nat) (description : string) : M A :=
  lift (Raise (HTTPException code description)).
(** ** The validator *)

Section App.

(** The interpreter setting [int] depends on. *)
Variable int_max_str_digits : nat.

Definition FIELDNAMES : list string :=
  ["timestamp"; "name"; "email"; "attending"; "guests"; "note"].

Definition name_message : string := "Please enter your full name.".
Definition email_message : string := "Enter a valid email address.".
Definition attending_message : string := "Let us know if you can attend.".
Definition guests_message : string := "The guest count must be between 0 and 5.".

(** [r"^[^@\s]+@[^@\s]+\.[^@\s]+$"] *)
Definition not_at_or_space : Re.atom := Re.NotIn [Re.Literal "@"; Re.CategorySpace].

Definition email_pattern : list Re.node :=
  [ Re.AtBeginning;
    Re.MaxRepeat1 not_at_or_space; Re.One (Re.Char "@");
    Re.MaxRepeat1 not_at_or_space; Re.One (Re.Char ".");
    Re.MaxRepeat1 not_at_or_space;
    Re.AtEnd ].

(** [attending in {"yes", "no"}], where [attending] is [None] when the form
    has no such field *)
Definition in_yes_no (attending : option string) : bool :=
  match attending with
  | Some a => String.eqb a "yes" || String.eqb a "no"
  | None => false
  end.

(** The [try] block of [validate_form] with its handler. *)
Definition parse_guests (errors : gmap string string) (guests : string)
  : result (gmap string string * Z) :=
  try_except_ValueError
    (guests_val ← Py.int int_max_str_digits guests;
     if (guests_val <? 0) || (guests_val >? 5) then Raise ValueError
     else Ok (errors, guests_val))
    (Ok (<["guests" := guests_message]> errors, 0)).

Definition validate_form (form : gmap string string)
  : result (gmap string string * gmap string string) :=
  let errors : gmap string string := ∅ in
  let name := Py.strip (default "" (form !! "name")) in
  let email := Py.strip (default "" (form !! "email")) in
  let attending := form !! "attending" in
  let guests := default "0" (form !! "guests") in
  let errors :=
    if (String.length name <? 2)%nat then <["name" := name_message]> errors else errors in
  let errors :=
    if negb (Re.re_match email_pattern email)
    then <["email" := email_message]> errors else errors in
  let errors :=
    if negb (in_yes_no attending)
    then <["attending" := attending_message]> errors else errors in
  '(errors, guests_val) ← parse_guests errors guests;
  let note := Py.strip (default "" (form !! "note")) in
  Ok (errors,
      <["name" := name]> (<["email" := email]> (<["attending" := Py.or_else attending "no"]>
        (<["guests" := Py.str guests_val]> (<["note" := note]> ∅))))).



(** ** The record store *)

Definition ensure_csv : M unit :=
  present <- File.exists_ ;;
  if negb present then File.with_open_w (Csv.dict_writeheader FIELDNAMES)
  else ret_M tt.

Definition read_rsvps : M (list Csv.row) :=
  _ <- ensure_csv ;;
  File.with_open_r Csv.dict_reader.

Definition write_rsvp (row : gmap string string) : M unit :=
  _ <- ensure_csv ;;
  File.with_open_a (Csv.dict_writerow FIELDNAMES row).

(** ** The request handlers *)

Definition index : M response :=
  ret_M (RenderTemplate "index.html" (IndexPage None None) 200).

(** [utcnow_iso] is [datetime.utcnow().isoformat()] at the time of the
    request. *)
Definition submit (utcnow_iso : string) (form : gmap string string) : M response :=
  ec <- lift (validate_form form) ;;
  let errors := ec.1 in
  let cleaned := ec.2 in
  if negb (bool_decide (errors = ∅))
  then ret_M (RenderTemplate "index.html" (IndexPage (Some errors) (Some form)) 400)
  else
    let row := <["timestamp" := utcnow_iso]> cleaned in
    _ <- write_rsvp row ;;
    ret_M (RenderTemplate "thanks.html" (ThanksPage row) 200).

(** [r[key]] on a row *)
Definition getitem (r : Csv.row) (key : string) : result (option string) :=
  match Csv.cells r !! key with
  | Some v => Ok v
  | None => Raise (KeyError key)
  end.

(** [r["timestamp"]] for every row: the keys of the sort. *)
Fixpoint timestamps (rows : list Csv.row) : result (list (option string)) :=
  match rows with
  | [] => Ok []
  | r :: rows' =>
      k ← getitem r "timestamp";
      ks ← timestamps rows';
      Ok (k :: ks)
  end.

Definition key_lt (a b : string * Csv.row) : bool := String.ltb a.1 b.1.

(** [rows.sort(key=lambda r: r["timestamp"], reverse=True)]. The keys are
    taken first. A list of two rows or more is compared, and comparing
    with [None] raises [TypeError]. *)
Definition sort_by_timestamp_desc (rows : list Csv.row) : result (list Csv.row) :=
  keys ← timestamps rows;
  if (length rows <? 2)%nat then Ok rows
  else
    match mapM id keys with
    | Some ks => Ok (map snd (PyList.sort key_lt true (zip ks rows)))
    | None => Raise TypeError
    end.

(** [sum(term(r) for r in rows if r["attending"] == "yes-or-no")] *)
Fixpoint sum_where (answer : string) (term : Csv.row -> result Z) (rows : list Csv.row)
  : result Z :=
  match rows with
  | [] => Ok 0
  | r :: rows' =>
      a ← getitem r "attending";
      x ← (if bool_decide (a = Some answer) then term r else Ok 0);
      total ← sum_where answer term rows';
      Ok (x + total)
  end.

Definition guests_of (r : Csv.row) : result Z :=
  g ← getitem r "guests";
  match g with
  | Some s => Py.int int_max_str_digits s
  | None => Raise TypeError
  end.

Definition list_rsvps : M response :=
  rows <- read_rsvps ;;
  match rows with
  | [] => abort 404 "No RSVPs recorded yet."
  | _ :: _ =>
      lift (
        rows ← sort_by_timestamp_desc rows;
        yes ← sum_where "yes" (fun _ => Ok 1) rows;
        no ← sum_where "no" (fun _ => Ok 1) rows;
        guests ← sum_where "yes" guests_of rows;
        Ok (RenderTemplate "rsvps.html"
              (RsvpsPage rows (<["yes" := yes]> (<["no" := no]> (<["guests" := guests]> ∅))))
              200))
  end.

(** [utcnow_stamp] is [datetime.utcnow().strftime("%Y%m%d%H%M%S")]. *)
Definition download_rsvps (utcnow_stamp : string) : M response :=
  rows <- read_rsvps ;;
  match rows with
  | [] => abort 404 "No RSVPs recorded yet."
  | _ :: _ =>
      data <- File.contents ;;
      ret_M (SendFile data "text/csv" ("rsvps_" +:+ utcnow_stamp +:+ ".csv"))
  end.


(** ** The rules of the validator, as the specification words them *)

(** The value a rule reads: an absent field counts as the empty string,
    an absent guest count as ["0"]. *)
Definition raw (form : gmap string string) (key : string) : string :=
  default (if String.eqb key "guests" then "0" else "") (form !! key).

Definition name_violated (form : gmap string string) : Prop :=
  (String.length (Py.strip (raw form "name")) < 2)%nat.

Definition email_violated (form : gmap string string) : Prop :=
  Re.re_match email_pattern (Py.strip (raw form "email")) = false.

Definition attending_violated (form : gmap string string) : Prop :=
  form !! "attending" ≠ Some "yes" ∧ form !! "attending" ≠ Some "no".

(** The guest count parses as the integer [n] and [n] is in [0,5]. *)
Definition guests_accepted (guests : string) (n : Z) : Prop :=
  Py.int int_max_str_digits guests = Ok n ∧ 0 <= n <= 5.

Definition guests_violated (form : gmap string string) : Prop :=
  ∀ n, ¬ guests_accepted (raw form "guests") n.

Definition violated (form : gmap string string) (key : string) : Prop :=
  (key = "name" ∧ name_violated form)
  ∨ (key = "email" ∧ email_violated form)
  ∨ (key = "attending" ∧ attending_violated form)
  ∨ (key = "guests" ∧ guests_violated form).

Definition rule_message (key : string) : string :=
  if String.eqb key "name" then name_message
  else if String.eqb key "email" then email_message
  else if String.eqb key "attending" then attending_message
  else guests_message.

(** A run of one or more characters that are neither an at sign nor
    white space. *)
Definition plain_char (c : ascii) : bool := negb (Ascii.eqb c "@") && negb (Py.is_space c).

Definition plain_run (s : string) : Prop := s ≠ EmptyString ∧ Py.str_all plain_char s = true.

(** The shape of rule 2: a run, an at sign, a run, a dot, a run, from
    start to end. *)
Definition email_shape (s : string) : Prop :=
  ∃ l d t, s = l +:+ "@" +:+ d +:+ "." +:+ t ∧ plain_run l ∧ plain_run d ∧ plain_run t.

(** ** The same code in the shape the proofs use *)

Definition add_error (b : bool) (key msg : string) (errors : gmap string string)
  : gmap string string :=
  if b then <[key := msg]> errors else errors.

(** The errors after the checks of the name, the email and the answer. *)
Definition first_checks (form : gmap string string) : gmap string string :=
  add_error (negb (in_yes_no (form !! "attending"))) "attending" attending_message
    (add_error (negb (Re.re_match email_pattern (Py.strip (raw form "email"))))
       "email" email_message
       (add_error (String.length (Py.strip (raw form "name")) <? 2)%nat
          "name" name_message ∅)).

Definition cleaned_with (form : gmap string string) (guests_val : Z) : gmap string string :=
  <["name" := Py.strip (raw form "name")]>
    (<["email" := Py.strip (raw form "email")]>
       (<["attending" := Py.or_else (form !! "attending") "no"]>
          (<["guests" := Py.str guests_val]>
             (<["note" := Py.strip (raw form "note")]> ∅)))).

(** ** The listing, as the specification words it *)

Definition timestamp_of (r : Csv.row) : option string :=
  match Csv.cells r !! "timestamp" with
  | Some (Some t) => Some t
  | _ => None
  end.

(** The row answers [a] to the question whether the guest attends. *)
Definition answers (a : string) (r : Csv.row) : Prop :=
  Csv.cells r !! "attending" = Some (Some a).

Global Instance answers_dec a r : Decision (answers a r).
Proof. unfold answers. apply _. Defined.

(** The guest count of a row as a number. *)
Definition guests_number (r : Csv.row) : Z :=
  match Csv.cells r !! "guests" with
  | Some (Some g) =>
      match Py.int int_max_str_digits g with
      | Ok n => n
      | Raise _ => 0
      end
  | _ => 0
  end.

Definition count_answers (a : string) (rows : list Csv.row) : Z :=
  Z.of_nat (length (filter (answers a) rows)).

Definition total_confirmed_guests (rows : list Csv.row) : Z :=
  foldr Z.add 0 (map guests_number (filter (answers "yes") rows)).

(** A row the listing can show: it has a time stamp and an answer, and
    when the answer is yes its guest count is a number. *)
Definition listable (r : Csv.row) : Prop :=
  (∃ t, Csv.cells r !! "timestamp" = Some (Some t))
  ∧ (∃ a, Csv.cells r !! "attending" = Some a)
  ∧ (answers "yes" r →
     ∃ g n, Csv.cells r !! "guests" = Some (Some g)
            ∧ Py.int int_max_str_digits g = Ok n).

(** The same as a test. *)
Definition listableb (r : Csv.row) : bool :=
  match Csv.cells r !! "timestamp", Csv.cells r !! "attending" with
  | Some (Some _), Some a =>
      if bool_decide (a = Some "yes")
      then match Csv.cells r !! "guests" with
           | Some (Some g) =>
               match Py.int int_max_str_digits g with
               | Ok _ => true
               | Raise _ => false
               end
           | _ => false
           end
      else true
  | _, _ => false
  end.

(** [r1] may stand before [r2] in a listing by descending time stamp;
    strings compare as Python compares them, code point by code point. *)
Definition newer_or_equal (r1 r2 : Csv.row) : Prop :=
  ∃ t1 t2, timestamp_of r1 = Some t1 ∧ timestamp_of r2 = Some t2
           ∧ String.leb t2 t1 = true.

Definition stamped (t : string) (r : Csv.row) : Prop := timestamp_of r = Some t.

Global Instance stamped_dec t r : Decision (stamped t r).
Proof. unfold stamped. apply _. Defined.

(** The totals the listing hands to its template. *)
Definition totals_of (rows : list Csv.row) : gmap string Z :=
  <["yes" := count_answers "yes" rows]>
    (<["no" := count_answers "no" rows]>
       (<["guests" := total_confirmed_guests rows]> ∅)).


(** ** The store, as the specification words it *)

(** The header row as it stands in the file. *)
Definition header_text : string :=
  "timestamp,name,email,attending,guests,note" +:+ Csv.LINETERMINATOR.

(** The values of a record in the order of the fields. *)
Definition values_of (record : gmap string string) : list string :=
  map (λ key, default EmptyString (record !! key)) FIELDNAMES.

(** The state after [n] calls of [ensure_csv]. *)
Definition ensure_csv_times (n : nat) (fs : option string) : option string :=
  Nat.iter n (λ fs, (ensure_csv fs).2) fs.

Definition not_found : exn := HTTPException 404 "No RSVPs recorded yet.".


(** ** The text of a store *)

(** A field the reader takes: not longer than [csv.field_size_limit()]. *)
Definition fits (f : string) : Prop :=
  (N.of_nat (String.length f) ≤ Csv.FIELD_LIMIT)%N.

(** A record with two fields or more. *)
Definition wide (record : list string) : Prop := (2 ≤ length record)%nat.

(** The rows the writer has written, one after the other. *)
Definition rows_text (records : list (list string)) : string :=
  foldr (λ r text, Csv.writerow r +:+ text) EmptyString records.

(** The store with the header row and the given records. *)
Definition store_of (records : list (list string)) : option string :=
  Some (rows_text (FIELDNAMES :: records)).

(** The text of a field in a row: quoted and with its quotes doubled, or as
    it is. *)
Definition field_text (quoted : bool) (g : string) : string :=
  if quoted then String Py.DQUOTE (Csv.double_quotes g +:+ String Py.DQUOTE EmptyString)
  else g.

(** The state in which a record or a field begins. *)
Definition fresh (s : Csv.state) : Prop := s = Csv.START_RECORD ∨ s = Csv.START_FIELD.

(** A state in which a field has ended. *)
Definition ended (s : Csv.state) : Prop :=
  s = Csv.IN_FIELD ∨ s = Csv.QUOTE_IN_QUOTED_FIELD ∨ s = Csv.START_FIELD.

(** The fields of a row, each given with whether it is quoted, as they
    stand in the row. *)
Fixpoint fields_text (fields : list (bool * string)) : string :=
  match fields with
  | [] => EmptyString
  | [f] => field_text f.1 f.2
  | f :: rest => field_text f.1 f.2 +:+ String Csv.DELIMITER (fields_text rest)
  end.

(** Rows that end in a line feed, as the reader gets them. *)
Definition lines_text (records : list (list (bool * string))) : string :=
  foldr (λ r text, fields_text r +:+ String Py.LF text) EmptyString records.

(** A field the parser reads back from its text. *)
Definition readable (f : bool * string) : Prop :=
  (f.1 = false → Py.str_any Csv.special f.2 = false) ∧ fits f.2.

(** [universal_newlines] as a machine that remembers whether the last
    character was a carriage return. *)
Fixpoint newlines_from (after_cr : bool) (s : string) : string :=
  match s with
  | EmptyString => EmptyString
  | String c t =>
      if Ascii.eqb c Py.CR then String Py.LF (newlines_from true t)
      else if Ascii.eqb c Py.LF && after_cr then newlines_from false t
      else String c (newlines_from false t)
  end.

(** A field as the reader gets it: quoted when the writer quoted it, and
    with its line ends translated. *)
Definition as_read (f : string) : bool * string :=
  (Py.str_any Csv.special f, TextIO.universal_newlines f).

(** The first character of the string, if any, is not a line feed. *)
Definition no_line_feed_first (s : string) : Prop :=
  match s with
  | EmptyString => True
  | String c _ => c ≠ Py.LF
  end.

(** A field as the writer writes it: quoted when it has a special
    character. *)
Definition as_written (f : string) : bool * string := (Py.str_any Csv.special f, f).

(** The row [read_rsvps] makes of a record of the store: the values under
    the field names, with their line ends translated. *)
Definition row_read (record : list string) : Csv.row :=
  Csv.make_row FIELDNAMES (map TextIO.universal_newlines record).

(** The string has no carriage return. *)
Definition no_carriage_return (s : string) : Prop :=
  Py.str_any (Ascii.eqb Py.CR) s = false.

(** ** The records [submit] stores *)

(** A record as [submit] stores it: six fields that the reader takes, the
    answer yes or no, the guest count the decimal string of a number from
    0 to 5. *)
Definition kept (record : list string) : Prop :=
  ∃ t name email a n note,
    record = [t; name; email; a; Py.str n; note]
    ∧ (a = "yes" ∨ a = "no") ∧ 0 <= n <= 5 ∧ Forall fits record.

(** The answer of a record, its fourth field. *)
Definition answer_of (record : list string) : string :=
  default EmptyString (record !! 3%nat).


(** ** Records of any source *)

(** The record answers yes: its fourth field reads as [yes]. *)
Definition says_yes (record : list string) : Prop :=
  TextIO.universal_newlines <$> record !! 3%nat = Some "yes".

(** The record has a guest count, its fifth field, that [int] accepts as
    it is read. *)
Definition countable (record : list string) : Prop :=
  ∃ g n, record !! 4%nat = Some g
         ∧ Py.int int_max_str_digits (TextIO.universal_newlines g) = Ok n.

(** The exceptions of a guest count that cannot be counted. *)
Definition count_error (e : exn) : Prop := e = ValueError ∨ e = TypeError.

(** ** The validator: proofs *)

(** Unfolds the binds of [result] and nothing else. *)
Ltac rsimpl := cbn [mbind mret result_bind result_ret rbind].

Lemma int_raises_ValueError s e :
  Py.int int_max_str_digits s = Raise e → e = ValueError.
Proof.
  unfold Py.int. intros H.
  repeat case_match; congruence.
Qed.

Lemma parse_guests_cases (errors : gmap string string) g :
  (∃ n, guests_accepted g n ∧ parse_guests errors g = Ok (errors, n))
  ∨ ((∀ n, ¬ guests_accepted g n)
     ∧ parse_guests errors g = Ok (<["guests" := guests_message]> errors, 0)).
Proof.
  unfold parse_guests, guests_accepted.
  destruct (Py.int int_max_str_digits g) as [n|e] eqn:Hint; cbn.
  - destruct ((n <? 0) || (n >? 5)) eqn:Hrange; cbn.
    + right. split; [|done]. intros m [[= ->] ?]. lia.
    + left. exists n. split; [|done]. split; [done|lia].
  - right. apply int_raises_ValueError in Hint as ->. cbn.
    split; [|done]. intros m [[=] _].
Qed.

Lemma guests_accepted_inj g n m : guests_accepted g n → guests_accepted g m → n = m.
Proof. intros [H1 _] [H2 _]. congruence. Qed.

Lemma lookup_add_error (b : bool) key msg (e : gmap string string) k m :
  (if b then <[key := msg]> e else e) !! k = Some m
  ↔ (b = true ∧ k = key ∧ m = msg) ∨ ((b = false ∨ k ≠ key) ∧ e !! k = Some m).
Proof.
  destruct b.
  - rewrite lookup_insert_Some. naive_solver.
  - naive_solver.
Qed.

Lemma in_yes_no_false form :
  in_yes_no (form !! "attending") = false ↔ attending_violated form.
Proof.
  unfold attending_violated, in_yes_no.
  destruct (form !! "attending") as [a|]; [|naive_solver].
  rewrite orb_false_iff, !String.eqb_neq. naive_solver.
Qed.


Lemma validate_form_unfold form :
  validate_form form =
    ('(errors, guests_val) ← parse_guests (first_checks form) (raw form "guests");
     Ok (errors, cleaned_with form guests_val)).
Proof. reflexivity. Qed.

(** [validate_form] returns, and what it returns depends on the guest
    count in one of two ways. *)
Lemma validate_form_cases form :
  (∃ n, guests_accepted (raw form "guests") n
        ∧ validate_form form = Ok (first_checks form, cleaned_with form n))
  ∨ (guests_violated form
     ∧ validate_form form =
         Ok (<["guests" := guests_message]> (first_checks form), cleaned_with form 0)).
Proof.
  rewrite validate_form_unfold.
  destruct (parse_guests_cases (first_checks form) (raw form "guests"))
    as [(n & Hn & ->)|[Hn ->]]; [left; by exists n|right; done].
Qed.

Lemma lookup_add_error_fresh b key msg (e : gmap string string) k m :
  e !! key = None →
  add_error b key msg e !! k = Some m ↔ (b = true ∧ k = key ∧ m = msg) ∨ e !! k = Some m.
Proof.
  intros Hfresh. unfold add_error. destruct b.
  - rewrite lookup_insert_Some. split.
    + intros [[<- <-]|[_ ?]]; auto.
    + intros [(_ & -> & ->)|H]; [by left|].
      right. split; [|done]. intros ->. congruence.
  - split; [auto|]. intros [(? & _)|?]; [discriminate|done].
Qed.

Lemma lookup_first_checks form k m :
  first_checks form !! k = Some m
  ↔ (k = "name" ∧ name_violated form ∧ m = name_message)
    ∨ (k = "email" ∧ email_violated form ∧ m = email_message)
    ∨ (k = "attending" ∧ attending_violated form ∧ m = attending_message).
Proof.
  unfold first_checks, name_violated, email_violated.
  rewrite <- in_yes_no_false, <- Nat.ltb_lt.
  rewrite lookup_add_error_fresh by (unfold add_error; by repeat case_match).
  rewrite lookup_add_error_fresh by (unfold add_error; by repeat case_match).
  rewrite lookup_add_error_fresh by done.
  rewrite lookup_empty, !negb_true_iff.
  intuition congruence.
Qed.

Lemma first_checks_guests form : first_checks form !! "guests" = None.
Proof.
  destruct (first_checks form !! "guests") as [m|] eqn:H; [|done].
  apply lookup_first_checks in H. naive_solver.
Qed.

Lemma rule_message_cases k :
  (k = "name" → rule_message k = name_message)
  ∧ (k = "email" → rule_message k = email_message)
  ∧ (k = "attending" → rule_message k = attending_message)
  ∧ (k = "guests" → rule_message k = guests_message).
Proof. repeat split; intros ->; reflexivity. Qed.

Lemma validate_form_errors_lookup form errors cleaned k m :
  validate_form form = Ok (errors, cleaned) →
  errors !! k = Some m ↔ violated form k ∧ m = rule_message k.
Proof.
  intros Hv. unfold violated.
  destruct (validate_form_cases form) as [(n & Hn & Hc)|[Hn Hc]];
    rewrite Hc in Hv; injection Hv as <- <-.
  - rewrite lookup_first_checks. split.
    + intros [(-> & ? & ->)|[(-> & ? & ->)|(-> & ? & ->)]]; naive_solver.
    + intros [[[-> ?]|[[-> ?]|[[-> ?]|[-> Hg]]]] ->]; [naive_solver..|].
      by destruct (Hg n).
  - rewrite lookup_insert_Some, lookup_first_checks. split.
    + intros [[<- <-]|[? [(-> & ? & ->)|[(-> & ? & ->)|(-> & ? & ->)]]]]; naive_solver.
    + intros [[[-> ?]|[[-> ?]|[[-> ?]|[-> Hg]]]] ->]; [right; naive_solver..|].
      by left.
Qed.

Lemma validate_form_errors_are_the_rules form :
  ∃ errors cleaned,
    validate_form form = Ok (errors, cleaned)
    ∧ (∀ k m, errors !! k = Some m ↔ violated form k ∧ m = rule_message k).
Proof.
  destruct (validate_form_cases form) as [(n & _ & Hv)|[_ Hv]];
    eexists _, _; (split; [exact Hv|]); intros k m;
    by apply (validate_form_errors_lookup form _ _ k m Hv).
Qed.

(** C1. For every form, [validate_form] returns, and the keys of the
    errors it returns are exactly the violated rules, each with the
    message of its rule: [name] when the trimmed name is shorter than two
    characters, [email] when the trimmed email does not match the pattern,
    [attending] when the answer is neither yes nor no, [guests] when the
    guest count (["0"] when absent) does not parse to an integer in
    [0,5]. The checks do not depend on one another: with no rule violated
    the errors are empty, with exactly one rule violated they are exactly
    that key. *)
Theorem validate_form_errors_are_the_violated_rules (form : gmap string string) :
  ∃ errors cleaned,
    validate_form form = Ok (errors, cleaned)
    ∧ (∀ k m, errors !! k = Some m ↔ violated form k ∧ m = rule_message k)
    ∧ ((∀ k, ¬ violated form k) → errors = ∅)
    ∧ (∀ k, violated form k → (∀ k', violated form k' → k' = k) →
            errors = {[ k := rule_message k ]}).
Proof.
  assert (∃ errors cleaned, validate_form form = Ok (errors, cleaned))
    as (errors & cleaned & Hv).
  { destruct (validate_form_cases form) as [(n & _ & ->)|[_ ->]]; eauto. }
  exists errors, cleaned. split; [done|].
  pose proof (validate_form_errors_lookup form errors cleaned) as Hl.
  specialize (λ k m, Hl k m Hv).
  split; [done|]. split.
  - intros Hnone. apply map_eq. intros k. rewrite lookup_empty.
    destruct (errors !! k) as [m|] eqn:Hk; [|done].
    apply Hl in Hk as [? _]. by destruct (Hnone k).
  - intros k Hk Honly. apply map_eq. intros k'.
    destruct (decide (k' = k)) as [->|Hne].
    + rewrite lookup_singleton_eq. by apply Hl.
    + rewrite lookup_singleton_ne by done.
      destruct (errors !! k') as [m|] eqn:Hk'; [|done].
      apply Hl in Hk' as [?%Honly _]. done.
Qed.

Lemma str_small n : 0 <= n <= 5 → Py.str n = String (ascii_of_nat (48 + Z.to_nat n)) EmptyString.
Proof.
  intros H.
  assert (n = 0 ∨ n = 1 ∨ n = 2 ∨ n = 3 ∨ n = 4 ∨ n = 5) as Hn by lia.
  destruct Hn as [->|[->|[->|[->|[->| ->]]]]]; reflexivity.
Qed.

(** C2. For every form, [validate_form] returns (no exception leaves
    it). An absent guest count is read as ["0"]. When the guest count does
    not parse as an integer, or parses to an integer outside [0,5], the
    guests error is recorded and the cleaned guest count is ["0"];
    otherwise there is no guests error and the cleaned guest count is the
    decimal string of the integer, a single digit. *)
Theorem validate_form_guest_count (form : gmap string string) :
  ∃ errors cleaned,
    validate_form form = Ok (errors, cleaned)
    ∧ (form !! "guests" = None →
       errors !! "guests" = None ∧ cleaned !! "guests" = Some "0")
    ∧ match Py.int int_max_str_digits (default "0" (form !! "guests")) with
      | Ok n =>
          if (0 <=? n) && (n <=? 5)
          then errors !! "guests" = None
               ∧ cleaned !! "guests" = Some (Py.str n)
               ∧ Py.str n = String (ascii_of_nat (48 + Z.to_nat n)) EmptyString
          else errors !! "guests" = Some guests_message
               ∧ cleaned !! "guests" = Some "0"
      | Raise _ =>
          errors !! "guests" = Some guests_message ∧ cleaned !! "guests" = Some "0"
      end.
Proof.
  change (default "0" (form !! "guests")) with (raw form "guests").
  destruct (validate_form_cases form) as [(n & [Hint Hn] & ->)|[Hv ->]];
    eexists _, _; (split; [reflexivity|]).
  - rewrite first_checks_guests. split.
    + intros Habs. split; [done|].
      unfold raw in Hint. rewrite Habs in Hint. cbn in Hint.
      injection Hint as <-. reflexivity.
    + rewrite Hint.
      replace ((0 <=? n) && (n <=? 5)) with true by lia.
      split; [done|]. split; [reflexivity|]. by apply str_small.
  - split.
    + intros Habs. exfalso. apply (Hv 0). split; [|lia].
      unfold raw. rewrite Habs. reflexivity.
    + destruct (Py.int int_max_str_digits (raw form "guests")) as [n|e] eqn:Hint.
      * destruct ((0 <=? n) && (n <=? 5)) eqn:Hn.
        -- exfalso. apply (Hv n). split; [done|lia].
        -- split; [apply lookup_insert_eq|reflexivity].
      * split; [apply lookup_insert_eq|reflexivity].
Qed.

(** C3 as amended. For every form, whether or not it has errors,
    [validate_form] returns a cleaned mapping with exactly the five fields
    name, email, attending, guests and note: the trimmed name, the trimmed
    email, the answer as given when the field is present and not empty and
    ["no"] otherwise, the decimal string of the normalized guest count (the
    parsed integer when it is in [0,5], else 0), and the trimmed note. *)
Theorem validate_form_cleaned_fields (form : gmap string string) :
  ∃ errors cleaned guests_val,
    validate_form form = Ok (errors, cleaned)
    ∧ dom cleaned = {[ "name"; "email"; "attending"; "guests"; "note" ]}
    ∧ cleaned !! "name" = Some (Py.strip (default "" (form !! "name")))
    ∧ cleaned !! "email" = Some (Py.strip (default "" (form !! "email")))
    ∧ cleaned !! "attending" =
        Some match form !! "attending" with
             | Some a => if decide (a = "") then "no" else a
             | None => "no"
             end
    ∧ cleaned !! "guests" = Some (Py.str guests_val)
    ∧ (guests_accepted (default "0" (form !! "guests")) guests_val
       ∨ (guests_violated form ∧ guests_val = 0))
    ∧ cleaned !! "note" = Some (Py.strip (default "" (form !! "note"))).
Proof.
  assert (∀ g, dom (cleaned_with form g)
               = ({[ "name"; "email"; "attending"; "guests"; "note" ]} : gset string))
    as Hdom.
  { intros g. unfold cleaned_with. rewrite !dom_insert_L, dom_empty_L. set_solver. }
  assert (∀ g, cleaned_with form g !! "attending" =
               Some match form !! "attending" with
                    | Some a => if decide (a = "") then "no" else a
                    | None => "no"
                    end) as Hatt.
  { intros g. unfold cleaned_with.
    rewrite lookup_insert_ne, lookup_insert_ne, lookup_insert_eq by done.
    f_equal. destruct (form !! "attending") as [[|c a]|]; reflexivity. }
  destruct (validate_form_cases form) as [(n & Hn & ->)|[Hv ->]].
  - exists (first_checks form), (cleaned_with form n), n.
    repeat split; try done; try apply Hn. by left.
  - eexists _, (cleaned_with form 0), 0.
    repeat split; try done. right. done.
Qed.

(** ** The email pattern *)

Lemma str_app_cons x (a b : string) : String x a +:+ b = String x (a +:+ b).
Proof. reflexivity. Qed.

Lemma str_app_nil_l (b : string) : EmptyString +:+ b = b.
Proof. reflexivity. Qed.

Lemma str_app_assoc (a b c : string) : (a +:+ b) +:+ c = a +:+ (b +:+ c).
Proof.
  induction a as [|x a IH]; [done|].
  by rewrite !str_app_cons, IH.
Qed.

Lemma str_app_nil_r (a : string) : a +:+ EmptyString = a.
Proof.
  induction a as [|x a IH]; [done|].
  by rewrite str_app_cons, IH.
Qed.

Lemma run_one a q at0 s :
  Re.run (Re.One a :: q) at0 s = true
  ↔ ∃ c r, s = String c r ∧ Re.atom_ok a c = true ∧ Re.run q false r = true.
Proof.
  destruct s as [|c t]; cbn.
  - split; [done|]. by intros (? & ? & ? & _).
  - rewrite andb_true_iff. split.
    + intros [? ?]. by exists c, t.
    + intros (? & ? & [= <- <-] & ? & ?). done.
Qed.

Lemma run_max_repeat1_cons a q at0 c t :
  Re.run (Re.MaxRepeat1 a :: q) at0 (String c t)
  = Re.atom_ok a c && (Re.run (Re.MaxRepeat1 a :: q) false t || Re.run q false t).
Proof. reflexivity. Qed.

(** A greedy repeat matches when some non-empty run of its characters is
    followed by a match of the rest of the pattern. *)
Lemma run_max_repeat1 a q at0 s :
  Re.run (Re.MaxRepeat1 a :: q) at0 s = true
  ↔ ∃ x r, s = x +:+ r ∧ x ≠ EmptyString
           ∧ Py.str_all (Re.atom_ok a) x = true ∧ Re.run q false r = true.
Proof.
  revert at0. induction s as [|c t IH]; intros at0.
  - split; [done|]. intros (x & r & Hs & Hx & _). by destruct x.
  - rewrite run_max_repeat1_cons, andb_true_iff, orb_true_iff, IH. split.
    + intros [Hc [(x & r & -> & Hx & Hall & Hr)|Hr]].
      * exists (String c x), r. cbn. by rewrite Hc, Hall.
      * exists (String c EmptyString), t. cbn. by rewrite Hc.
    + intros (x & r & Hs & Hx & Hall & Hr).
      destruct x as [|d x]; [done|]. rewrite str_app_cons in Hs. cbn in Hall.
      injection Hs as <- ->. apply andb_true_iff in Hall as [Hc Hall].
      split; [done|]. destruct x as [|e x]; [by right|].
      left. by exists (String e x), r.
Qed.

Lemma atom_ok_not_at_or_space c : Re.atom_ok not_at_or_space c = plain_char c.
Proof.
  unfold plain_char. cbn.
  destruct (Ascii.eqb c "@"), (Py.is_space c); reflexivity.
Qed.

Lemma str_all_ext (p q : ascii → bool) s :
  (∀ c, p c = q c) → Py.str_all p s = Py.str_all q s.
Proof. intros H. induction s as [|c t IH]; cbn; [done|by rewrite H, IH]. Qed.

Lemma run_plain_run q at0 s :
  Re.run (Re.MaxRepeat1 not_at_or_space :: q) at0 s = true
  ↔ ∃ x r, s = x +:+ r ∧ plain_run x ∧ Re.run q false r = true.
Proof.
  rewrite run_max_repeat1. unfold plain_run.
  split; intros (x & r & Hs & H); exists x, r; (split; [done|]).
  - destruct H as (? & Hall & ?).
    by rewrite (str_all_ext _ _ _ atom_ok_not_at_or_space) in Hall.
  - destruct H as ([? Hall] & ?).
    by rewrite (str_all_ext _ _ _ atom_ok_not_at_or_space).
Qed.

(** What the pattern accepts: the shape, and then the end of the string or
    one last line feed. *)
Lemma re_match_email_pattern s :
  Re.re_match email_pattern s = true
  ↔ ∃ l d t e, s = l +:+ "@" +:+ d +:+ "." +:+ t +:+ e
               ∧ plain_run l ∧ plain_run d ∧ plain_run t ∧ Re.at_end e = true.
Proof.
  unfold Re.re_match, email_pattern.
  change (Re.run (Re.AtBeginning :: ?q) true s) with (Re.run q true s).
  split.
  - intros H.
    apply run_plain_run in H as (l & r1 & -> & Hl & H).
    apply run_one in H as (c1 & r2 & -> & ->%Ascii.eqb_eq & H).
    apply run_plain_run in H as (d & r3 & -> & Hd & H).
    apply run_one in H as (c2 & r4 & -> & ->%Ascii.eqb_eq & H).
    apply run_plain_run in H as (t & e & -> & Ht & H).
    cbn in H. rewrite andb_true_r in H.
    by exists l, d, t, e.
  - intros (l & d & t & e & -> & Hl & Hd & Ht & He).
    apply run_plain_run. exists l, ("@" +:+ d +:+ "." +:+ t +:+ e).
    split; [done|]. split; [done|].
    apply run_one. exists "@"%char, (d +:+ "." +:+ t +:+ e).
    split; [done|]. split; [done|].
    apply run_plain_run. exists d, ("." +:+ t +:+ e).
    split; [done|]. split; [done|].
    apply run_one. exists "."%char, (t +:+ e).
    split; [done|]. split; [done|].
    apply run_plain_run. exists t, e.
    split; [done|]. split; [done|].
    cbn. by rewrite He.
Qed.

Lemma str_app_eq_nil (a b : string) : a +:+ b = EmptyString → b = EmptyString.
Proof. destruct a; [done|discriminate]. Qed.

(** What [rstrip] returns does not end in white space. *)
Lemma rstrip_last s x c :
  Py.rstrip s = x +:+ String c EmptyString → Py.is_space c = false.
Proof.
  revert x. induction s as [|a t IH]; intros x; cbn.
  - intros H. symmetry in H. by apply str_app_eq_nil in H.
  - destruct (Py.rstrip t) as [|d u] eqn:Ht.
    + destruct (Py.is_space a) eqn:Ha.
      * intros H. symmetry in H. by apply str_app_eq_nil in H.
      * destruct x as [|b x]; rewrite ?str_app_cons, ?str_app_nil_l.
        -- by intros [= <-].
        -- intros [= _ H]. symmetry in H. by apply str_app_eq_nil in H.
    + destruct x as [|b x]; rewrite ?str_app_cons, ?str_app_nil_l.
      * intros [= _ ?].
      * intros [= _ H]. by apply (IH x).
Qed.

Lemma strip_last s x c :
  Py.strip s = x +:+ String c EmptyString → Py.is_space c = false.
Proof. apply rstrip_last. Qed.

Lemma re_match_email_shape s :
  Re.re_match email_pattern (Py.strip s) = true ↔ email_shape (Py.strip s).
Proof.
  rewrite re_match_email_pattern. unfold email_shape. split.
  - intros (l & d & t & e & Hs & Hl & Hd & Ht & He).
    exists l, d, t. split; [|done].
    destruct e as [|c [|? ?]]; [by rewrite str_app_nil_r in Hs| |done].
    cbn in He. apply Ascii.eqb_eq in He as ->.
    exfalso.
    assert (Py.is_space Py.LF = false) as Hsp; [|done].
    apply (strip_last s (l +:+ "@" +:+ d +:+ "." +:+ t)).
    rewrite Hs. by rewrite !str_app_assoc.
  - intros (l & d & t & Hs & Hl & Hd & Ht).
    exists l, d, t, EmptyString. by rewrite str_app_nil_r.
Qed.

Lemma email_violated_iff form :
  email_violated form ↔ ¬ email_shape (Py.strip (default "" (form !! "email"))).
Proof.
  unfold email_violated.
  change (raw form "email") with (default "" (form !! "email")).
  rewrite <- re_match_email_shape.
  destruct (Re.re_match _ _); split; done.
Qed.

(** C5. For every form, [validate_form] reports the email error exactly
    when the trimmed email does not have, from start to end, the shape: one
    or more characters that are neither an at sign nor white space, an at
    sign, one or more such characters, a dot, one or more such characters.
    The address a@b.c has the shape; a@b (no dot), a b@c.d (a blank
    inside) and @c.d (nothing before the at sign) do not. *)
Theorem validate_form_email_error_iff_shape (form : gmap string string) :
  ∃ errors cleaned,
    validate_form form = Ok (errors, cleaned)
    ∧ (errors !! "email" = Some email_message
       ↔ ¬ email_shape (Py.strip (default "" (form !! "email"))))
    ∧ (errors !! "email" = None
       ↔ email_shape (Py.strip (default "" (form !! "email"))))
    ∧ email_shape (Py.strip "a@b.c")
    ∧ ¬ email_shape (Py.strip "a@b")
    ∧ ¬ email_shape (Py.strip "a b@c.d")
    ∧ ¬ email_shape (Py.strip "@c.d").
Proof.
  destruct (validate_form_errors_are_the_rules form)
    as (errors & cleaned & Hv & Hl).
  exists errors, cleaned. split; [done|].
  assert (errors !! "email" = Some email_message
          ↔ ¬ email_shape (Py.strip (default "" (form !! "email")))) as Hiff.
  { rewrite Hl, <- email_violated_iff. unfold violated.
    split; [|by eauto 10]. by intros [[[[=] _]|[[_ ?]|[[[=] _]|[[=] _]]]] _]. }
  split; [done|]. split.
  - rewrite <- re_match_email_shape in *.
    destruct (Re.re_match email_pattern _) eqn:Hm.
    + split; [done|]. intros _.
      destruct (errors !! "email") as [m|] eqn:He; [|done].
      apply Hl in He as [Hviol ->].
      destruct Hiff as [Hiff _]. by destruct Hiff.
    + split; [|done]. intros He. destruct Hiff as [_ Hiff].
      rewrite Hiff in He; [done|]. by intros [=].
  - rewrite <- !re_match_email_shape. by vm_compute.
Qed.

(** ** Sorting *)

Section SortFacts.
Context {A : Type} (lt : A → A → bool).
Hypothesis lt_asym : ∀ x y, lt x y = true → lt y x = false.
Hypothesis le_trans : ∀ x y z, lt y x = false → lt z y = false → lt z x = false.

(** [x] may stand before [y] in ascending order. *)
Definition ascending (x y : A) : Prop := lt y x = false.

Lemma insert_front_perm x l : PyList.insert_front lt x l ≡ₚ x :: l.
Proof.
  induction l as [|y l IH]; cbn; [done|].
  destruct (lt y x); [|done]. rewrite IH. apply Permutation_swap.
Qed.

Lemma stable_sort_perm l : PyList.stable_sort lt l ≡ₚ l.
Proof.
  induction l as [|x l IH]; cbn; [done|].
  by rewrite insert_front_perm, IH.
Qed.

Lemma insert_front_sorted x l :
  StronglySorted ascending l → StronglySorted ascending (PyList.insert_front lt x l).
Proof.
  induction 1 as [|y l Hs IH Hall]; cbn.
  - repeat constructor.
  - destruct (lt y x) eqn:Hyx.
    + constructor; [done|].
      rewrite insert_front_perm. constructor; [|done].
      by apply lt_asym.
    + constructor; [by constructor|].
      constructor; [done|].
      eapply Forall_impl; [exact Hall|].
      intros z Hz. by apply (le_trans x y z).
Qed.

Lemma stable_sort_sorted l : StronglySorted ascending (PyList.stable_sort lt l).
Proof.
  induction l as [|x l IH]; cbn; [constructor|].
  by apply insert_front_sorted.
Qed.

(** Items that [lt] does not tell apart keep their order. *)
Section Stable.
Context (P : A → Prop) `{!∀ x, Decision (P x)}.
Hypothesis P_equal : ∀ x y, P x → P y → lt y x = false.

Lemma insert_front_filter x l :
  filter P (PyList.insert_front lt x l) = filter P (x :: l).
Proof.
  induction l as [|y l IH]; [done|]. cbn [PyList.insert_front].
  destruct (lt y x) eqn:Hyx; [|done].
  rewrite (filter_cons _ y), IH, !(filter_cons _ x), (filter_cons _ y).
  destruct (decide (P x)) as [Hx|Hx]; [|done].
  destruct (decide (P y)) as [Hy|Hy]; [|done].
  rewrite P_equal in Hyx; done.
Qed.

Lemma stable_sort_filter l : filter P (PyList.stable_sort lt l) = filter P l.
Proof.
  induction l as [|x l IH]; [done|]. cbn [PyList.stable_sort].
  by rewrite insert_front_filter, !filter_cons, IH.
Qed.

Lemma filter_rev l : filter P (rev l) = rev (filter P l).
Proof.
  induction l as [|x l IH]; [done|]. cbn [rev].
  rewrite filter_app, IH, !filter_cons, filter_nil.
  destruct (decide (P x)); [done|]. by rewrite app_nil_r.
Qed.

Lemma sort_reverse_filter l : filter P (PyList.sort lt true l) = filter P l.
Proof.
  unfold PyList.sort.
  by rewrite filter_rev, stable_sort_filter, filter_rev, rev_involutive.
Qed.
End Stable.

Lemma sort_reverse_perm l : PyList.sort lt true l ≡ₚ l.
Proof.
  unfold PyList.sort.
  by rewrite <- Permutation_rev, stable_sort_perm, <- Permutation_rev.
Qed.

Lemma StronglySorted_snoc (R : A → A → Prop) l x :
  StronglySorted R l → Forall (λ y, R y x) l → StronglySorted R (l ++ [x]).
Proof.
  induction 1 as [|y l Hs IH Hall]; intros Hx; cbn.
  - repeat constructor.
  - apply Forall_cons in Hx as [Hyx Hx].
    constructor; [by apply IH|].
    apply Forall_app. split; [done|]. by constructor.
Qed.

Lemma StronglySorted_rev (R : A → A → Prop) l :
  StronglySorted R l → StronglySorted (flip R) (rev l).
Proof.
  induction 1 as [|x l Hs IH Hall]; cbn; [constructor|].
  apply StronglySorted_snoc; [done|].
  by rewrite <- Permutation_rev.
Qed.

(** After a reverse sort no item is smaller than a later one. *)
Lemma sort_reverse_sorted l :
  StronglySorted (flip ascending) (PyList.sort lt true l).
Proof. apply StronglySorted_rev, stable_sort_sorted. Qed.
End SortFacts.

(** ** The order of strings *)

Lemma ltb_false_leb a b : String.ltb b a = false ↔ String.leb a b = true.
Proof.
  unfold String.ltb, String.leb. rewrite (String.compare_antisym a b).
  destruct (String.compare b a); cbn; split; done.
Qed.

Lemma ltb_irrefl a : String.ltb a a = false.
Proof.
  apply ltb_false_leb. apply Is_true_true. apply (reflexivity (R := String.le)).
Qed.

Lemma key_lt_asym (x y : string * Csv.row) : key_lt x y = true → key_lt y x = false.
Proof.
  unfold key_lt, String.ltb. rewrite (String.compare_antisym y.1 x.1).
  by destruct (String.compare x.1 y.1).
Qed.

Lemma key_le_trans (x y z : string * Csv.row) :
  key_lt y x = false → key_lt z y = false → key_lt z x = false.
Proof.
  unfold key_lt. rewrite !ltb_false_leb.
  intros H1%Is_true_true H2%Is_true_true. apply Is_true_true.
  exact (transitivity (R := String.le) H1 H2).
Qed.

(** ** The listing *)

Lemma Zsum_perm (l l' : list Z) : l ≡ₚ l' → foldr Z.add 0 l = foldr Z.add 0 l'.
Proof. induction 1; cbn; lia. Qed.

Lemma Zsum_ones {A} (l : list A) : foldr Z.add 0 (map (λ _, 1) l) = Z.of_nat (length l).
Proof. induction l; cbn [map foldr length]; lia. Qed.

Lemma filter_map_pairs {A B} (f : A → B) (P : B → Prop) (Q : A → Prop)
    `{!∀ x, Decision (P x)} `{!∀ x, Decision (Q x)} l :
  Forall (λ p, P (f p) ↔ Q p) l → filter P (map f l) = map f (filter Q l).
Proof.
  induction 1 as [|p l Hp _ IH]; [done|]. cbn [map].
  rewrite !filter_cons, IH.
  destruct (decide (P (f p))), (decide (Q p)); tauto.
Qed.

Lemma StronglySorted_map {A B} (f : A → B) (R : A → A → Prop) (R' : B → B → Prop)
    (I : A → Prop) l :
  (∀ a b, I a → I b → R a b → R' (f a) (f b)) →
  Forall I l → StronglySorted R l → StronglySorted R' (map f l).
Proof.
  intros HR HI Hs. induction Hs as [|a l Hs IH Hall]; cbn [map]; [constructor|].
  apply Forall_cons in HI as [Ha HI].
  constructor; [by apply IH|].
  clear IH Hs. revert HI.
  induction Hall as [|b l Hab _ IH]; intros HI; cbn [map]; [constructor|].
  apply Forall_cons in HI as [Hb HI]. constructor; auto.
Qed.

Lemma mapM_id_Some {A} (l : list A) : mapM id (map Some l) = Some l.
Proof. induction l as [|x l IH]; [done|]. cbn. by rewrite IH. Qed.

Lemma timestamps_listable rows :
  Forall listable rows →
  ∃ ks, timestamps rows = Ok (map Some ks)
        ∧ Forall2 (λ k r, timestamp_of r = Some k) ks rows.
Proof.
  induction 1 as [|r rows [[t Ht] _] _ (ks & Hks & Hall)].
  - by exists [].
  - exists (t :: ks). cbn. unfold getitem. rewrite Ht. cbn.
    rewrite Hks. cbn. split; [done|].
    constructor; [|done]. unfold timestamp_of. by rewrite Ht.
Qed.

(** The reverse sort returns the rows in descending order of their time
    stamps, and rows with one time stamp in the order they had. *)
Lemma sort_by_timestamp_desc_spec rows :
  Forall listable rows →
  ∃ shown, sort_by_timestamp_desc rows = Ok shown
           ∧ shown ≡ₚ rows
           ∧ StronglySorted newer_or_equal shown
           ∧ ∀ t, filter (stamped t) shown = filter (stamped t) rows.
Proof.
  intros Hl. destruct (timestamps_listable rows Hl) as (ks & Hks & Hall).
  unfold sort_by_timestamp_desc. rewrite Hks. rsimpl.
  destruct (length rows <? 2)%nat eqn:Hlen.
  - exists rows. split; [done|]. split; [done|]. split; [|done].
    destruct rows as [|r [|r' rows]]; [constructor| |done].
    constructor; constructor.
  - rewrite mapM_id_Some.
    set (ps := zip ks rows).
    assert (map snd ps = rows) as Hsnd.
    { subst ps. clear -Hall. induction Hall; cbn; [done|by f_equal]. }
    assert (Forall (λ p, timestamp_of p.2 = Some p.1) ps) as Hps.
    { subst ps. clear -Hall. induction Hall; cbn; constructor; done. }
    assert (Forall (λ p, timestamp_of p.2 = Some p.1) (PyList.sort key_lt true ps)) as Hsorted.
    { by rewrite sort_reverse_perm. }
    exists (map snd (PyList.sort key_lt true ps)). split; [done|]. split; [|split].
    + rewrite <- Hsnd at 1. apply Permutation_map, sort_reverse_perm.
    + eapply StronglySorted_map;
        [|exact Hsorted|apply (sort_reverse_sorted key_lt key_lt_asym key_le_trans)].
      intros a b Ha Hb Hab. exists a.1, b.1. split; [done|]. split; [done|].
      by apply ltb_false_leb.
    + intros t. rewrite <- Hsnd at 1.
      rewrite (filter_map_pairs snd (stamped t) (λ p, p.1 = t)).
      2:{ eapply Forall_impl; [exact Hsorted|]. intros p Hp. unfold stamped.
          rewrite Hp. split; [by intros [= ->]|by intros ->]. }
      rewrite (filter_map_pairs snd (stamped t) (λ p, p.1 = t)).
      2:{ eapply Forall_impl; [exact Hps|]. intros p Hp. unfold stamped.
          rewrite Hp. split; [by intros [= ->]|by intros ->]. }
      f_equal. apply sort_reverse_filter.
      intros x y Hx Hy. cbv beta in Hx, Hy. unfold key_lt.
      rewrite Hx, Hy. apply ltb_irrefl.
Qed.

Lemma sum_where_spec a term (f : Csv.row → Z) rows :
  Forall (λ r, (∃ x, Csv.cells r !! "attending" = Some x)
               ∧ (answers a r → term r = Ok (f r))) rows →
  sum_where a term rows = Ok (foldr Z.add 0 (map f (filter (answers a) rows))).
Proof.
  induction 1 as [|r rows [[x Hx] Hterm] _ IH]; [done|].
  cbn [sum_where]. unfold getitem. rewrite Hx, filter_cons, IH. rsimpl.
  destruct (decide (answers a r)) as [Hyes|Hno].
  - rewrite Hterm by done. unfold answers in Hyes. rewrite Hx in Hyes.
    injection Hyes as ->. rewrite bool_decide_eq_true_2 by done. rsimpl.
    done.
  - rewrite bool_decide_eq_false_2.
    2:{ intros ->. by apply Hno. }
    rsimpl. done.
Qed.

Lemma listableb_listable r : listableb r = true → listable r.
Proof.
  unfold listableb, listable, answers.
  destruct (Csv.cells r !! "timestamp") as [[t|]|]; [|done..].
  destruct (Csv.cells r !! "attending") as [a|]; [|done].
  intros H. split; [by exists t|]. split; [by exists a|].
  intros [= ->]. rewrite bool_decide_eq_true_2 in H by done.
  destruct (Csv.cells r !! "guests") as [[g|]|]; [|done..].
  destruct (Py.int int_max_str_digits g) as [n|] eqn:Hint; [|done].
  by exists g, n.
Qed.

Lemma forallb_listable rows : forallb listableb rows = true → Forall listable rows.
Proof.
  induction rows as [|r rows IH]; cbn [forallb]; [constructor|].
  intros [Hr Hrows]%andb_true_iff. constructor; [by apply listableb_listable|auto].
Qed.

Lemma guests_of_listable r :
  listable r → answers "yes" r → guests_of r = Ok (guests_number r).
Proof.
  intros (_ & _ & Hg) Hyes. destruct (Hg Hyes) as (g & n & Hcell & Hint).
  unfold guests_of, guests_number, getitem. rewrite Hcell. cbn. by rewrite Hint.
Qed.

Lemma totals_perm rows rows' : rows ≡ₚ rows' → totals_of rows = totals_of rows'.
Proof.
  intros Hp.
  assert (∀ a, filter (answers a) rows ≡ₚ filter (answers a) rows') as Hf.
  { intros a. by rewrite Hp. }
  unfold totals_of, count_answers, total_confirmed_guests.
  rewrite (Permutation_length (Hf "yes")), (Permutation_length (Hf "no")).
  rewrite (Zsum_perm _ _ (Permutation_map guests_number (Hf "yes"))).
  done.
Qed.

(** What the listing shows for a store with rows. *)
Lemma list_rsvps_shows fs rows fs' :
  read_rsvps fs = (Ok rows, fs') →
  rows ≠ [] →
  Forall listable rows →
  ∃ shown, sort_by_timestamp_desc rows = Ok shown
           ∧ list_rsvps fs =
               (Ok (RenderTemplate "rsvps.html" (RsvpsPage shown (totals_of rows)) 200), fs').
Proof.
  intros Hread Hne Hl.
  destruct (sort_by_timestamp_desc_spec rows Hl) as (shown & Hsort & Hperm & _).
  exists shown. split; [done|].
  unfold list_rsvps, bind_M. rewrite Hread.
  destruct rows as [|r rows]; [done|].
  unfold lift. rewrite Hsort. rsimpl.
  assert (Forall listable shown) as Hl' by by rewrite Hperm.
  rewrite (sum_where_spec "yes" (λ _, Ok 1) (λ _, 1)).
  2:{ eapply Forall_impl; [exact Hl'|]. by intros x (_ & ? & _). }
  rsimpl.
  rewrite (sum_where_spec "no" (λ _, Ok 1) (λ _, 1)).
  2:{ eapply Forall_impl; [exact Hl'|]. by intros x (_ & ? & _). }
  rsimpl.
  rewrite (sum_where_spec "yes" guests_of guests_number).
  2:{ eapply Forall_impl; [exact Hl'|]. intros x Hx. split; [apply Hx|].
      by apply guests_of_listable. }
  rsimpl. rewrite !Zsum_ones.
  rewrite <- (totals_perm _ _ Hperm). done.
Qed.

(** C6. For a store whose rows can be listed, the listing is rendered and
    its totals are: under yes the number of rows that answer yes, under
    no the number of rows that answer no, and under guests the sum of the
    guest counts of the rows that answer yes, and of no other row. *)
Theorem list_rsvps_totals (fs : option string) (rows : list Csv.row) (fs' : option string) :
  read_rsvps fs = (Ok rows, fs') →
  rows ≠ [] →
  Forall listable rows →
  ∃ shown totals,
    list_rsvps fs = (Ok (RenderTemplate "rsvps.html" (RsvpsPage shown totals) 200), fs')
    ∧ totals !! "yes" = Some (Z.of_nat (length (filter (answers "yes") rows)))
    ∧ totals !! "no" = Some (Z.of_nat (length (filter (answers "no") rows)))
    ∧ totals !! "guests"
      = Some (foldr Z.add 0 (map guests_number (filter (answers "yes") rows))).
Proof.
  intros Hread Hne Hl.
  destruct (list_rsvps_shows fs rows fs' Hread Hne Hl) as (shown & _ & ->).
  by exists shown, (totals_of rows).
Qed.

(** C7. For a store whose rows can be listed, the listing shows the same
    rows sorted by time stamp in descending order, and rows with equal
    time stamps stand in the order in which the store has them. *)
Theorem list_rsvps_order (fs : option string) (rows : list Csv.row) (fs' : option string) :
  read_rsvps fs = (Ok rows, fs') →
  rows ≠ [] →
  Forall listable rows →
  ∃ shown totals,
    list_rsvps fs = (Ok (RenderTemplate "rsvps.html" (RsvpsPage shown totals) 200), fs')
    ∧ shown ≡ₚ rows
    ∧ StronglySorted newer_or_equal shown
    ∧ ∀ t, filter (stamped t) shown = filter (stamped t) rows.
Proof.
  intros Hread Hne Hl.
  destruct (list_rsvps_shows fs rows fs' Hread Hne Hl) as (shown & Hsort & ->).
  destruct (sort_by_timestamp_desc_spec rows Hl) as (shown' & Hsort' & Hspec).
  assert (shown' = shown) as -> by congruence.
  by exists shown, (totals_of rows).
Qed.

(** ** The store *)

Lemma ensure_csv_missing : ensure_csv None = (Ok tt, Some header_text).
Proof. reflexivity. Qed.

Lemma ensure_csv_present text : ensure_csv (Some text) = (Ok tt, Some text).
Proof. reflexivity. Qed.

Lemma read_rsvps_header : read_rsvps (Some header_text) = (Ok [], Some header_text).
Proof. by vm_compute. Qed.

(** C8. [ensure_csv] on a missing store creates the header row, with the
    field names in their order, and no other row. On a store that exists
    it changes nothing, however often it is called. Calling it twice is
    calling it once. *)
Theorem ensure_csv_idempotent :
  ensure_csv None
    = (Ok tt, Some ("timestamp,name,email,attending,guests,note" +:+ Csv.LINETERMINATOR))
  ∧ File.with_open_r Csv.reader (ensure_csv None).2 = (Ok [FIELDNAMES], (ensure_csv None).2)
  ∧ (∀ text n, ensure_csv (Some text) = (Ok tt, Some text)
               ∧ ensure_csv_times n (Some text) = Some text)
  ∧ (∀ fs, ensure_csv (ensure_csv fs).2 = (Ok tt, (ensure_csv fs).2)).
Proof.
  split; [reflexivity|]. split; [by vm_compute|]. split.
  - intros text n. split; [reflexivity|].
    induction n as [|n IH]; [done|].
    change (ensure_csv_times (S n) (Some text))
      with (ensure_csv (ensure_csv_times n (Some text))).2.
    by rewrite IH.
  - by intros [text|].
Qed.

(** C9. On the store that [ensure_csv] has just created, [read_rsvps]
    returns the empty list without an error, and the listing and the
    export abort with 404 and a message, as they do on every store that
    reads as the empty list. *)
Theorem empty_store_is_not_found :
  read_rsvps (ensure_csv None).2 = (Ok [], (ensure_csv None).2)
  ∧ list_rsvps (ensure_csv None).2
    = (Raise (HTTPException 404 "No RSVPs recorded yet."), (ensure_csv None).2)
  ∧ (∀ stamp, download_rsvps stamp (ensure_csv None).2
              = (Raise (HTTPException 404 "No RSVPs recorded yet."), (ensure_csv None).2))
  ∧ (∀ fs fs' stamp,
       read_rsvps fs = (Ok [], fs') →
       list_rsvps fs = (Raise not_found, fs')
       ∧ download_rsvps stamp fs = (Raise not_found, fs')).
Proof.
  assert (∀ fs fs' stamp,
            read_rsvps fs = (Ok [], fs') →
            list_rsvps fs = (Raise not_found, fs')
            ∧ download_rsvps stamp fs = (Raise not_found, fs')) as Hgen.
  { intros fs fs' stamp Hread.
    unfold list_rsvps, download_rsvps, bind_M. by rewrite Hread. }
  rewrite ensure_csv_missing. cbn [snd].
  pose proof read_rsvps_header as Hread.
  destruct (Hgen _ _ EmptyString Hread) as [Hlist _].
  split; [exact Hread|]. split; [exact Hlist|].
  split; [|exact Hgen]. intros stamp.
  exact (proj2 (Hgen _ _ stamp Hread)).
Qed.

Lemma write_rsvp_unfold row fs :
  write_rsvp row fs
  = File.with_open_a (Csv.dict_writerow FIELDNAMES row) (ensure_csv fs).2.
Proof. by destruct fs. Qed.

Lemma dict_writerow_values row :
  dom row ⊆ list_to_set FIELDNAMES →
  Csv.dict_writerow FIELDNAMES row = Ok (Csv.writerow (values_of row)).
Proof.
  intros Hdom. unfold Csv.dict_writerow, Csv.dict_to_list.
  by rewrite bool_decide_eq_true_2.
Qed.

(** C10. Neither store operation needs the store to exist. On a missing
    store [read_rsvps] creates the header row and returns the empty list,
    and [write_rsvp] does what it does on the store with the header row
    alone: for a record over the six fields it leaves the header row
    followed by the row of the record. *)
Theorem store_operations_self_initialize :
  read_rsvps None = (Ok [], (ensure_csv None).2)
  ∧ (ensure_csv None).2 = Some header_text
  ∧ (∀ row, write_rsvp row None = write_rsvp row (Some header_text))
  ∧ (∀ row, dom row ⊆ list_to_set FIELDNAMES →
            write_rsvp row None
            = (Ok tt, Some (header_text +:+ Csv.writerow (values_of row)))).
Proof.
  split; [by vm_compute|]. split; [reflexivity|]. split; [done|].
  intros row Hdom. rewrite write_rsvp_unfold, ensure_csv_missing. cbn [snd].
  unfold File.with_open_a. by rewrite dict_writerow_values.
Qed.

(** ** Reading what the writer wrote *)

Lemma str_length_app (a b : string) :
  String.length (a +:+ b) = (String.length a + String.length b)%nat.
Proof.
  induction a as [|x a IH]; [done|].
  rewrite str_app_cons. cbn [String.length]. by rewrite IH.
Qed.

Lemma split_lines_nil s : TextIO.split_lines s = [] → s = EmptyString.
Proof.
  destruct s as [|c t]; [done|]. cbn [TextIO.split_lines].
  destruct (Ascii.eqb c Py.LF); [done|].
  by destruct (TextIO.split_lines t).
Qed.

(** The reader on a text, one character at a time: a character that is
    not a line feed and not the last one is fed to the parser. *)
Lemma read_records_char p c t :
  c ≠ Py.LF → t ≠ EmptyString →
  Csv.read_records p (TextIO.split_lines (String c t))
  = (p' ← Csv.parse_process_char p (Csv.Chr c);
     Csv.read_records p' (TextIO.split_lines t)).
Proof.
  intros Hc Ht. cbn [TextIO.split_lines].
  rewrite (proj2 (Ascii.eqb_neq c Py.LF) Hc).
  destruct (TextIO.split_lines t) as [|l ls] eqn:Hl.
  { by apply split_lines_nil in Hl. }
  cbn [Csv.read_records]. unfold Csv.feed_line. cbn [Csv.feed_chars]. rsimpl.
  by destruct (Csv.parse_process_char p (Csv.Chr c)).
Qed.

(** A line feed ends the line: the parser gets it and then the end of line
    mark, and the record is complete when the state is [START_RECORD]. *)
Lemma read_records_line_feed p c t :
  c = Py.LF →
  Csv.read_records p (TextIO.split_lines (String c t))
  = (p1 ← Csv.parse_process_char p (Csv.Chr c);
     p2 ← Csv.parse_process_char p1 Csv.EOL;
     if bool_decide (Csv.st p2 = Csv.START_RECORD)
     then records ← Csv.read_records Csv.parse_reset (TextIO.split_lines t);
          Ok (Csv.fields p2 :: records)
     else Csv.read_records p2 (TextIO.split_lines t)).
Proof.
  intros ->. cbn [TextIO.split_lines]. rewrite Ascii.eqb_refl.
  cbn [Csv.read_records]. unfold Csv.feed_line. cbn [Csv.feed_chars]. rsimpl.
  by destruct (Csv.parse_process_char p (Csv.Chr Py.LF)).
Qed.

Local Abbreviation RR p s := (Csv.read_records p (TextIO.split_lines s)).

Lemma str_app_nonempty_r (a b : string) : b ≠ EmptyString → a +:+ b ≠ EmptyString.
Proof. intros Hb H. by apply str_app_eq_nil in H. Qed.

Lemma special_false c :
  Csv.special c = false →
  Ascii.eqb c Csv.DELIMITER = false ∧ Ascii.eqb c Py.DQUOTE = false
  ∧ Csv.is_newline c = false ∧ c ≠ Py.LF.
Proof.
  unfold Csv.special, Csv.is_newline.
  destruct (Ascii.eqb c Csv.DELIMITER), (Ascii.eqb c Py.DQUOTE),
    (Ascii.eqb c Py.CR), (Ascii.eqb c Py.LF) eqn:Hlf; try done.
  intros _. repeat split. by apply Ascii.eqb_neq.
Qed.

Lemma parse_add_char_ok p c :
  (N.of_nat (String.length (Csv.field p +:+ String c EmptyString)) ≤ Csv.FIELD_LIMIT)%N →
  Csv.parse_add_char p c
  = Ok (Csv.Parser (Csv.st p) (Csv.fields p) (Csv.field p +:+ String c EmptyString)).
Proof.
  intros H. unfold Csv.parse_add_char.
  rewrite str_length_app in H. cbn [String.length] in H.
  destruct (N.leb_spec Csv.FIELD_LIMIT (N.of_nat (String.length (Csv.field p))));
    [lia|done].
Qed.

Lemma fits_prefix (a b : string) :
  (N.of_nat (String.length (a +:+ b)) ≤ Csv.FIELD_LIMIT)%N →
  (N.of_nat (String.length a) ≤ Csv.FIELD_LIMIT)%N.
Proof. rewrite str_length_app. lia. Qed.

Lemma str_app_snoc (a : string) c (b : string) :
  (a +:+ String c EmptyString) +:+ b = a +:+ String c b.
Proof. by rewrite str_app_assoc. Qed.

(** The characters of an unquoted field are added to the field. *)
Lemma read_unquoted got acc f rest :
  Py.str_any Csv.special f = false →
  rest ≠ EmptyString →
  (N.of_nat (String.length (acc +:+ f)) ≤ Csv.FIELD_LIMIT)%N →
  RR (Csv.Parser Csv.IN_FIELD got acc) (f +:+ rest)
  = RR (Csv.Parser Csv.IN_FIELD got (acc +:+ f)) rest.
Proof.
  revert acc. induction f as [|c f IH]; intros acc Hs Hrest Hfit.
  - by rewrite str_app_nil_r.
  - cbn [Py.str_any] in Hs. apply orb_false_iff in Hs as [Hc Hs].
    destruct (special_false c Hc) as (Hdelim & _ & Hnl & Hlf).
    rewrite str_app_cons, read_records_char by auto using str_app_nonempty_r.
    unfold Csv.parse_process_char. cbn [Csv.st]. rewrite Hnl, Hdelim.
    rewrite <- str_app_snoc in Hfit.
    rewrite parse_add_char_ok by (cbn [Csv.field]; by apply fits_prefix in Hfit).
    rsimpl. cbn [Csv.st Csv.fields Csv.field].
    rewrite IH by done. by rewrite str_app_snoc.
Qed.

Lemma process_in_quoted_char got acc c :
  Ascii.eqb c Py.DQUOTE = false →
  Csv.parse_process_char (Csv.Parser Csv.IN_QUOTED_FIELD got acc) (Csv.Chr c)
  = Csv.parse_add_char (Csv.Parser Csv.IN_QUOTED_FIELD got acc) c.
Proof. intros H. unfold Csv.parse_process_char. cbn [Csv.st]. by rewrite H. Qed.

Lemma process_in_quoted_eol got acc :
  Csv.parse_process_char (Csv.Parser Csv.IN_QUOTED_FIELD got acc) Csv.EOL
  = Ok (Csv.Parser Csv.IN_QUOTED_FIELD got acc).
Proof. reflexivity. Qed.

(** The characters of a quoted field are added to the field, a doubled
    quote as one quote and a line feed as itself. *)
Lemma read_quoted got acc f rest :
  rest ≠ EmptyString →
  (N.of_nat (String.length (acc +:+ f)) ≤ Csv.FIELD_LIMIT)%N →
  RR (Csv.Parser Csv.IN_QUOTED_FIELD got acc) (Csv.double_quotes f +:+ rest)
  = RR (Csv.Parser Csv.IN_QUOTED_FIELD got (acc +:+ f)) rest.
Proof.
  revert acc. induction f as [|c f IH]; intros acc Hrest Hfit.
  - by rewrite str_app_nil_r.
  - rewrite <- str_app_snoc in Hfit.
    assert (Csv.parse_add_char (Csv.Parser Csv.IN_QUOTED_FIELD got acc) c
            = Ok (Csv.Parser Csv.IN_QUOTED_FIELD got (acc +:+ String c EmptyString)))
      as Hadd.
    { rewrite parse_add_char_ok; [done|]. cbn [Csv.field]. by apply fits_prefix in Hfit. }
    assert (Csv.double_quotes f +:+ rest ≠ EmptyString) as Hne
      by by apply str_app_nonempty_r.
    cbn [Csv.double_quotes].
    destruct (Ascii.eqb c Py.DQUOTE) eqn:Hq.
    + apply Ascii.eqb_eq in Hq as ->.
      rewrite !str_app_cons.
      rewrite read_records_char by done.
      unfold Csv.parse_process_char at 1. cbn [Csv.st]. rewrite Ascii.eqb_refl. rsimpl.
      rewrite read_records_char by done.
      unfold Csv.parse_process_char at 1. cbn [Csv.st Csv.set_state]. rewrite Ascii.eqb_refl.
      rewrite parse_add_char_ok by (cbn [Csv.field]; by apply fits_prefix in Hfit).
      rsimpl. unfold Csv.set_state. cbn [Csv.st Csv.fields Csv.field].
      rewrite IH by done. by rewrite str_app_snoc.
    + rewrite str_app_cons.
      destruct (Ascii.eqb c Py.LF) eqn:Hlf.
      * apply Ascii.eqb_eq in Hlf.
        rewrite read_records_line_feed by done.
        rewrite process_in_quoted_char, Hadd by done. rsimpl.
        rewrite process_in_quoted_eol. rsimpl. cbn [Csv.st].
        rewrite bool_decide_eq_false_2 by done.
        rewrite IH by done. by rewrite str_app_snoc.
      * apply Ascii.eqb_neq in Hlf.
        rewrite read_records_char by done.
        rewrite process_in_quoted_char, Hadd by done. rsimpl.
        rewrite IH by done. by rewrite str_app_snoc.
Qed.

Lemma process_fresh_quote s got :
  fresh s →
  Csv.parse_process_char (Csv.Parser s got EmptyString) (Csv.Chr Py.DQUOTE)
  = Ok (Csv.Parser Csv.IN_QUOTED_FIELD got EmptyString).
Proof. by intros [-> | ->]. Qed.

Lemma process_fresh_delimiter s got :
  fresh s →
  Csv.parse_process_char (Csv.Parser s got EmptyString) (Csv.Chr Csv.DELIMITER)
  = Ok (Csv.Parser Csv.START_FIELD (got ++ [EmptyString]) EmptyString).
Proof. by intros [-> | ->]. Qed.

Lemma process_fresh_char s got c :
  fresh s → Csv.special c = false →
  Csv.parse_process_char (Csv.Parser s got EmptyString) (Csv.Chr c)
  = Ok (Csv.Parser Csv.IN_FIELD got (String c EmptyString)).
Proof.
  intros Hs Hc. destruct (special_false c Hc) as (Hdelim & Hq & Hnl & _).
  destruct Hs as [-> | ->]; unfold Csv.parse_process_char, Csv.start_field;
    cbn [Csv.st Csv.set_state]; by rewrite Hnl, Hq, Hdelim.
Qed.

Lemma process_closing_quote got g :
  Csv.parse_process_char (Csv.Parser Csv.IN_QUOTED_FIELD got g) (Csv.Chr Py.DQUOTE)
  = Ok (Csv.Parser Csv.QUOTE_IN_QUOTED_FIELD got g).
Proof. reflexivity. Qed.

Lemma process_ended_delimiter s got g :
  ended s →
  Csv.parse_process_char (Csv.Parser s got g) (Csv.Chr Csv.DELIMITER)
  = Ok (Csv.Parser Csv.START_FIELD (got ++ [g]) EmptyString).
Proof. by intros [-> | [-> | ->]]. Qed.

Lemma process_ended_line_feed s got g :
  ended s →
  Csv.parse_process_char (Csv.Parser s got g) (Csv.Chr Py.LF)
  = Ok (Csv.Parser Csv.EAT_CRNL (got ++ [g]) EmptyString).
Proof. by intros [-> | [-> | ->]]. Qed.

Lemma process_eat_eol got :
  Csv.parse_process_char (Csv.Parser Csv.EAT_CRNL got EmptyString) Csv.EOL
  = Ok (Csv.Parser Csv.START_RECORD got EmptyString).
Proof. reflexivity. Qed.

(** The content of a field has been read; what follows ends the field. *)
Lemma read_field_end_delimiter s got g rest :
  ended s → rest ≠ EmptyString →
  RR (Csv.Parser s got g) (String Csv.DELIMITER rest)
  = RR (Csv.Parser Csv.START_FIELD (got ++ [g]) EmptyString) rest.
Proof.
  intros Hs Hrest. rewrite read_records_char by done.
  by rewrite process_ended_delimiter.
Qed.

Lemma read_field_end_line s got g rest :
  ended s →
  RR (Csv.Parser s got g) (String Py.LF rest)
  = (records ← RR Csv.parse_reset rest; Ok ((got ++ [g]) :: records)).
Proof.
  intros Hs. rewrite read_records_line_feed by done.
  rewrite process_ended_line_feed by done. rsimpl.
  by rewrite process_eat_eol.
Qed.

(** The text of a field is read as the field, up to what ends the field:
    the state is then one in which a field has ended, with the field read;
    only an empty field at the start of a record leaves the state as it
    was. *)
Lemma read_field_text s got q g rest :
  fresh s →
  (q = false → Py.str_any Csv.special g = false) →
  fits g →
  rest ≠ EmptyString →
  ∃ s', (ended s' ∨ (s' = Csv.START_RECORD ∧ s = Csv.START_RECORD ∧ g = EmptyString))
        ∧ RR (Csv.Parser s got EmptyString) (field_text q g +:+ rest)
          = RR (Csv.Parser s' got g) rest.
Proof.
  intros Hs Hq Hfit Hrest. unfold fits in Hfit. destruct q; cbn [field_text].
  - exists Csv.QUOTE_IN_QUOTED_FIELD. split; [unfold ended; auto|].
    rewrite str_app_cons, str_app_snoc.
    rewrite read_records_char by auto using str_app_nonempty_r.
    rewrite process_fresh_quote by done. rsimpl.
    rewrite read_quoted by done. rewrite str_app_nil_l.
    rewrite read_records_char by done.
    by rewrite process_closing_quote.
  - specialize (Hq eq_refl). destruct g as [|c g].
    + exists s. split; [|done]. unfold ended. destruct Hs as [-> | ->]; auto.
    + exists Csv.IN_FIELD. split; [unfold ended; auto|].
      cbn [Py.str_any] in Hq. apply orb_false_iff in Hq as [Hc Hg].
      destruct (special_false c Hc) as (_ & _ & _ & Hlf).
      rewrite str_app_cons.
      rewrite read_records_char by auto using str_app_nonempty_r.
      rewrite process_fresh_char by done. rsimpl.
      by rewrite read_unquoted.
Qed.

Lemma read_field_delimiter s got q g rest :
  fresh s →
  (q = false → Py.str_any Csv.special g = false) →
  fits g →
  rest ≠ EmptyString →
  RR (Csv.Parser s got EmptyString) (field_text q g +:+ String Csv.DELIMITER rest)
  = RR (Csv.Parser Csv.START_FIELD (got ++ [g]) EmptyString) rest.
Proof.
  intros Hs Hq Hfit Hrest.
  destruct (read_field_text s got q g (String Csv.DELIMITER rest) Hs Hq Hfit)
    as (s' & Hs' & ->); [done|].
  destruct Hs' as [Hs'|(-> & _ & ->)].
  - by apply read_field_end_delimiter.
  - rewrite read_records_char by done.
    rewrite process_fresh_delimiter by (unfold fresh; auto). done.
Qed.

Lemma read_field_last got q g rest :
  (q = false → Py.str_any Csv.special g = false) →
  fits g →
  RR (Csv.Parser Csv.START_FIELD got EmptyString) (field_text q g +:+ String Py.LF rest)
  = (records ← RR Csv.parse_reset rest; Ok ((got ++ [g]) :: records)).
Proof.
  intros Hq Hfit.
  destruct (read_field_text Csv.START_FIELD got q g (String Py.LF rest))
    as (s' & Hs' & ->); [unfold fresh; auto|done..|].
  destruct Hs' as [Hs'|(_ & [=] & _)].
  by apply read_field_end_line.
Qed.

(** The fields of a record, two or more, are read as the record. *)
Lemma read_fields got fields rest :
  fields ≠ [] →
  Forall readable fields →
  RR (Csv.Parser Csv.START_FIELD got EmptyString) (fields_text fields +:+ String Py.LF rest)
  = (records ← RR Csv.parse_reset rest; Ok ((got ++ map snd fields) :: records)).
Proof.
  intros Hne Hall. revert got.
  induction Hall as [|f fields [Hq Hfit] Hall IH]; intros got; [done|].
  destruct fields as [|f' fields].
  - cbn [fields_text map]. by apply read_field_last.
  - change (fields_text (f :: f' :: fields))
      with (field_text f.1 f.2 +:+ String Csv.DELIMITER (fields_text (f' :: fields))).
    rewrite str_app_assoc, str_app_cons.
    rewrite read_field_delimiter; [|unfold fresh; auto|done..|].
    2:{ by apply str_app_nonempty_r. }
    rewrite IH by done. cbn [map]. by rewrite <- app_assoc.
Qed.

Lemma read_record fields rest :
  (2 ≤ length fields)%nat →
  Forall readable fields →
  RR Csv.parse_reset (fields_text fields +:+ String Py.LF rest)
  = (records ← RR Csv.parse_reset rest; Ok (map snd fields :: records)).
Proof.
  intros Hlen Hall.
  destruct fields as [|f [|f' fields]]; [(cbn in Hlen; lia)..|].
  apply Forall_cons in Hall as [[Hq Hfit] Hall].
  change (fields_text (f :: f' :: fields))
    with (field_text f.1 f.2 +:+ String Csv.DELIMITER (fields_text (f' :: fields))).
  rewrite str_app_assoc, str_app_cons. unfold Csv.parse_reset.
  rewrite read_field_delimiter; [|unfold fresh; auto|done..|].
  2:{ by apply str_app_nonempty_r. }
  by rewrite read_fields.
Qed.

Lemma read_lines records :
  Forall (λ r, (2 ≤ length r)%nat ∧ Forall readable r) records →
  RR Csv.parse_reset (lines_text records) = Ok (map (map snd) records).
Proof.
  induction 1 as [|r records [Hlen Hr] _ IH]; [done|].
  cbn [lines_text foldr map]. rewrite read_record by done.
  fold (lines_text records). by rewrite IH.
Qed.

(** ** The translation of line ends *)

Lemma universal_newlines_machine s :
  TextIO.universal_newlines s = newlines_from false s
  ∧ match s with
    | EmptyString => EmptyString
    | String d t => if Ascii.eqb d Py.LF then TextIO.universal_newlines t
                    else TextIO.universal_newlines s
    end = newlines_from true s.
Proof.
  induction s as [|c t [IH1 IH2]]; [done|].
  assert (TextIO.universal_newlines (String c t) = newlines_from false (String c t)) as H1.
  { cbn [TextIO.universal_newlines newlines_from].
    destruct (Ascii.eqb c Py.CR); [by rewrite IH2|].
    rewrite andb_false_r. by rewrite IH1. }
  split; [done|].
  cbn [newlines_from]. destruct (Ascii.eqb c Py.LF) eqn:Hlf.
  - apply Ascii.eqb_eq in Hlf as ->. by rewrite IH1.
  - rewrite H1. cbn [newlines_from]. by rewrite Hlf, andb_false_r.
Qed.

Lemma universal_newlines_from s : TextIO.universal_newlines s = newlines_from false s.
Proof. apply universal_newlines_machine. Qed.

Lemma newlines_from_start st s :
  no_line_feed_first s → newlines_from st s = newlines_from false s.
Proof.
  destruct s as [|c t]; [done|]. cbn [no_line_feed_first newlines_from].
  intros Hc%Ascii.eqb_neq. by rewrite Hc.
Qed.

Lemma newlines_from_app st a b :
  no_line_feed_first b →
  newlines_from st (a +:+ b) = newlines_from st a +:+ newlines_from false b.
Proof.
  intros Hb. revert st. induction a as [|c a IH]; intros st.
  - rewrite !str_app_nil_l. by apply newlines_from_start.
  - rewrite str_app_cons. cbn [newlines_from].
    destruct (Ascii.eqb c Py.CR); [by rewrite IH|].
    destruct (Ascii.eqb c Py.LF && st); by rewrite IH.
Qed.

Lemma newlines_from_double_quotes st f :
  newlines_from st (Csv.double_quotes f) = Csv.double_quotes (newlines_from st f).
Proof.
  revert st. induction f as [|c f IH]; intros st; [done|].
  cbn [Csv.double_quotes]. destruct (Ascii.eqb c Py.DQUOTE) eqn:Hq.
  - apply Ascii.eqb_eq in Hq as ->.
    change (newlines_from st (String Py.DQUOTE (String Py.DQUOTE (Csv.double_quotes f))))
      with (String Py.DQUOTE (String Py.DQUOTE (newlines_from false (Csv.double_quotes f)))).
    change (newlines_from st (String Py.DQUOTE f))
      with (String Py.DQUOTE (newlines_from false f)).
    cbn [Csv.double_quotes]. rewrite Ascii.eqb_refl. by rewrite IH.
  - cbn [newlines_from].
    destruct (Ascii.eqb c Py.CR) eqn:Hcr.
    + apply Ascii.eqb_eq in Hcr as ->. cbn [Csv.double_quotes]. by rewrite IH.
    + destruct (Ascii.eqb c Py.LF && st); [done|].
      cbn [Csv.double_quotes]. by rewrite Hq, IH.
Qed.

Lemma newlines_from_length st f :
  (String.length (newlines_from st f) ≤ String.length f)%nat.
Proof.
  revert st. induction f as [|c f IH]; intros st; [done|].
  cbn [newlines_from].
  destruct (Ascii.eqb c Py.CR); [cbn [String.length]; specialize (IH true); lia|].
  destruct (Ascii.eqb c Py.LF && st); cbn [String.length]; specialize (IH false); lia.
Qed.

Lemma newlines_from_plain st f :
  Py.str_any Csv.special f = false → newlines_from st f = f.
Proof.
  revert st. induction f as [|c f IH]; intros st; [done|].
  cbn [Py.str_any newlines_from]. intros [Hc Hf]%orb_false_iff.
  unfold Csv.special in Hc.
  destruct (Ascii.eqb c Py.CR), (Ascii.eqb c Py.LF);
    rewrite ?orb_true_r in Hc; try done.
  cbn [andb]. by rewrite IH.
Qed.

Lemma as_read_readable f : fits f → readable (as_read f).
Proof.
  intros Hfit. unfold readable, as_read, fits in *. cbn [fst snd]. split.
  - intros Hplain. rewrite universal_newlines_from, newlines_from_plain; done.
  - rewrite universal_newlines_from.
    pose proof (newlines_from_length false f). lia.
Qed.

(** ** What the writer writes, after the translation of line ends *)

Lemma join_fields_text r : Csv.join r = fields_text (map as_written r).
Proof.
  induction r as [|f [|g r] IH]; [done..|].
  change (Csv.join (f :: g :: r))
    with (Csv.join_append f +:+ String Csv.DELIMITER (Csv.join (g :: r))).
  by rewrite IH.
Qed.

Lemma is_empty_app_cons (a : string) c (b : string) : Py.is_empty (a +:+ String c b) = false.
Proof. by destruct a. Qed.

Lemma writerow_wide r : wide r → Csv.writerow r = Csv.join r +:+ Csv.LINETERMINATOR.
Proof.
  unfold wide. destruct r as [|f [|g r]]; [(cbn [length]; lia)..|]. intros _.
  unfold Csv.writerow.
  change (Csv.join (f :: g :: r))
    with (Csv.join_append f +:+ String Csv.DELIMITER (Csv.join (g :: r))).
  by rewrite is_empty_app_cons, andb_false_r.
Qed.

Lemma newlines_from_cons st c t :
  Ascii.eqb c Py.CR = false → Ascii.eqb c Py.LF = false →
  newlines_from st (String c t) = String c (newlines_from false t).
Proof. intros Hcr Hlf. cbn [newlines_from]. by rewrite Hcr, Hlf. Qed.

Lemma newlines_from_crlf st t :
  newlines_from st (String Py.CR (String Py.LF t)) = String Py.LF (newlines_from false t).
Proof. reflexivity. Qed.

Lemma newlines_field_text f t :
  no_line_feed_first t →
  newlines_from false (field_text (as_written f).1 (as_written f).2 +:+ t)
  = field_text (as_read f).1 (as_read f).2 +:+ newlines_from false t.
Proof.
  intros Ht. unfold as_written, as_read. cbn [fst snd].
  rewrite universal_newlines_from.
  destruct (Py.str_any Csv.special f); cbn [field_text].
  - rewrite !str_app_cons, !str_app_snoc.
    rewrite newlines_from_cons by done.
    rewrite newlines_from_app by (cbn; by apply Ascii.eqb_neq).
    rewrite newlines_from_double_quotes.
    by rewrite newlines_from_cons.
  - by apply newlines_from_app.
Qed.

Lemma newlines_fields_text r t :
  r ≠ [] →
  newlines_from false (fields_text (map as_written r) +:+ String Py.CR (String Py.LF t))
  = fields_text (map as_read r) +:+ String Py.LF (newlines_from false t).
Proof.
  intros Hne. induction r as [|f [|g r] IH]; [done|..].
  - cbn [map fields_text].
    rewrite newlines_field_text by (cbn; by apply Ascii.eqb_neq).
    by rewrite newlines_from_crlf.
  - change (fields_text (map as_written (f :: g :: r)))
      with (field_text (as_written f).1 (as_written f).2
            +:+ String Csv.DELIMITER (fields_text (map as_written (g :: r)))).
    change (fields_text (map as_read (f :: g :: r)))
      with (field_text (as_read f).1 (as_read f).2
            +:+ String Csv.DELIMITER (fields_text (map as_read (g :: r)))).
    rewrite !str_app_assoc, !str_app_cons.
    rewrite newlines_field_text by (cbn; by apply Ascii.eqb_neq).
    rewrite newlines_from_cons by done.
    by rewrite IH.
Qed.

Lemma newlines_rows_text records :
  Forall wide records →
  newlines_from false (rows_text records) = lines_text (map (map as_read) records).
Proof.
  induction 1 as [|r records Hr _ IH]; [done|].
  cbn [rows_text lines_text foldr map]. fold (rows_text records).
  fold (lines_text (map (map as_read) records)).
  rewrite writerow_wide by done. unfold Csv.LINETERMINATOR.
  rewrite str_app_assoc, !str_app_cons, str_app_nil_l.
  rewrite join_fields_text, newlines_fields_text, IH; [done|].
  intros ->. unfold wide in Hr. cbn in Hr. lia.
Qed.

(** The reader on the rows of the writer: every record comes back, each
    field with its line ends translated. *)
Lemma reader_rows_text records :
  Forall wide records →
  Forall (Forall fits) records →
  Csv.reader (TextIO.split_lines (TextIO.universal_newlines (rows_text records)))
  = Ok (map (map TextIO.universal_newlines) records).
Proof.
  intros Hwide Hfits. unfold Csv.reader.
  rewrite universal_newlines_from, newlines_rows_text by done.
  rewrite read_lines.
  - f_equal. rewrite map_map. apply map_ext. intros r. by rewrite map_map.
  - clear -Hwide Hfits.
    induction Hwide as [|r records Hr _ IH]; [constructor|].
    apply Forall_cons in Hfits as [Hf Hfits].
    constructor; [|by apply IH]. split.
    + by rewrite length_map.
    + clear -Hf. induction Hf; constructor; [by apply as_read_readable|done].
Qed.

(** ** The store as a list of records *)

Lemma rows_text_app records r :
  rows_text (records ++ [r]) = rows_text records +:+ Csv.writerow r.
Proof.
  induction records as [|r' records IH].
  - cbn [app rows_text foldr]. by rewrite str_app_nil_r, str_app_nil_l.
  - cbn [app rows_text foldr]. fold (rows_text (records ++ [r])). fold (rows_text records).
    by rewrite IH, str_app_assoc.
Qed.

Lemma store_of_nil : store_of [] = Some header_text.
Proof. reflexivity. Qed.

Lemma read_rsvps_present text :
  read_rsvps (Some text)
  = (Csv.dict_reader (TextIO.split_lines (TextIO.universal_newlines text)), Some text).
Proof. reflexivity. Qed.

Lemma wide_FIELDNAMES : wide FIELDNAMES.
Proof. unfold wide. cbn. lia. Qed.

Lemma fits_FIELDNAMES : Forall fits FIELDNAMES.
Proof. repeat constructor; by vm_compute. Qed.

Lemma filter_not_blank (records : list (list string)) :
  Forall wide records →
  filter (λ r, Csv.is_blank r = false) (map (map TextIO.universal_newlines) records)
  = map (map TextIO.universal_newlines) records.
Proof.
  induction 1 as [|r records Hr _ IH]; [done|].
  cbn [map]. rewrite filter_cons, IH.
  destruct r; [unfold wide in Hr; cbn in Hr; lia|]. done.
Qed.

Lemma universal_newlines_FIELDNAMES : map TextIO.universal_newlines FIELDNAMES = FIELDNAMES.
Proof. reflexivity. Qed.

Lemma read_rsvps_store_of records :
  Forall wide records →
  Forall (Forall fits) records →
  read_rsvps (store_of records) = (Ok (map row_read records), store_of records).
Proof.
  intros Hwide Hfits. unfold store_of. rewrite read_rsvps_present.
  unfold Csv.dict_reader.
  rewrite reader_rows_text.
  - rsimpl. cbn [map]. rewrite universal_newlines_FIELDNAMES.
    rewrite filter_not_blank by done. by rewrite map_map.
  - constructor; [apply wide_FIELDNAMES|done].
  - constructor; [apply fits_FIELDNAMES|done].
Qed.

Lemma write_rsvp_appends record fs :
  dom record ⊆ list_to_set FIELDNAMES →
  write_rsvp record fs
  = (Ok tt, Some (default header_text fs +:+ Csv.writerow (values_of record))).
Proof.
  intros Hdom. rewrite write_rsvp_unfold.
  unfold File.with_open_a. rewrite dict_writerow_values by done.
  by destruct fs.
Qed.

Lemma write_rsvp_store_of record records :
  dom record ⊆ list_to_set FIELDNAMES →
  write_rsvp record (store_of records) = (Ok tt, store_of (records ++ [values_of record])).
Proof.
  intros Hdom. rewrite write_rsvp_appends by done.
  unfold store_of. cbn [default]. by rewrite app_comm_cons, rows_text_app.
Qed.

Lemma universal_newlines_no_carriage_return s :
  no_carriage_return s → TextIO.universal_newlines s = s.
Proof.
  unfold no_carriage_return. induction s as [|c s IH]; [done|].
  cbn [Py.str_any TextIO.universal_newlines].
  rewrite (Ascii.eqb_sym Py.CR c).
  destruct (Ascii.eqb c Py.CR); [done|]. cbn [orb]. intros H. by rewrite IH.
Qed.

Lemma row_read_six t name email a g note :
  row_read [t; name; email; a; g; note]
  = Csv.Row (<["note" := Some (TextIO.universal_newlines note)]>
              (<["guests" := Some (TextIO.universal_newlines g)]>
                (<["attending" := Some (TextIO.universal_newlines a)]>
                  (<["email" := Some (TextIO.universal_newlines email)]>
                    (<["name" := Some (TextIO.universal_newlines name)]>
                      (<["timestamp" := Some (TextIO.universal_newlines t)]> ∅))))))
            None.
Proof. reflexivity. Qed.

Lemma row_read_values_of record key :
  key ∈ FIELDNAMES →
  Csv.cells (row_read (values_of record)) !! key
  = Some (Some (TextIO.universal_newlines (default EmptyString (record !! key)))).
Proof.
  intros Hkey. unfold values_of. cbn [map FIELDNAMES]. rewrite row_read_six.
  cbn [Csv.cells].
  unfold FIELDNAMES in Hkey. rewrite !elem_of_cons, elem_of_nil in Hkey.
  destruct Hkey as [->|[->|[->|[->|[->|[->|[]]]]]]]; reflexivity.
Qed.

(** ** Submissions *)

Lemma lstrip_length s : (String.length (Py.lstrip s) ≤ String.length s)%nat.
Proof.
  induction s as [|c s IH]; [done|]. cbn [Py.lstrip].
  destruct (Py.is_space c); cbn [String.length]; lia.
Qed.

Lemma rstrip_length s : (String.length (Py.rstrip s) ≤ String.length s)%nat.
Proof.
  induction s as [|c s IH]; [done|]. cbn [Py.rstrip].
  destruct (Py.rstrip s) as [|d u]; [destruct (Py.is_space c)|];
    cbn [String.length] in *; lia.
Qed.

Lemma strip_fits s : fits s → fits (Py.strip s).
Proof.
  unfold fits, Py.strip. intros H.
  pose proof (rstrip_length (Py.lstrip s)). pose proof (lstrip_length s). lia.
Qed.

Lemma no_violation_first_checks form : (∀ key, ¬ violated form key) → first_checks form = ∅.
Proof.
  intros Hnone. apply map_eq. intros k. rewrite lookup_empty.
  destruct (first_checks form !! k) as [m|] eqn:Hk; [|done].
  apply lookup_first_checks in Hk. exfalso. apply (Hnone k). unfold violated.
  destruct Hk as [(-> & ? & _)|[(-> & ? & _)|(-> & ? & _)]]; auto.
Qed.

Lemma dom_submitted_row now form n :
  dom (<["timestamp" := now]> (cleaned_with form n)) = list_to_set FIELDNAMES.
Proof.
  unfold cleaned_with. rewrite !dom_insert_L, dom_empty_L.
  cbn [list_to_set FIELDNAMES]. set_solver.
Qed.

Lemma values_of_submitted_row now form n :
  values_of (<["timestamp" := now]> (cleaned_with form n))
  = [now; Py.strip (raw form "name"); Py.strip (raw form "email");
     Py.or_else (form !! "attending") "no"; Py.str n; Py.strip (raw form "note")].
Proof. reflexivity. Qed.

(** What [validate_form] returns for a form that violates no rule. *)
Lemma validate_form_accepts form :
  (∀ key, ¬ violated form key) →
  ∃ a n,
    form !! "attending" = Some a ∧ (a = "yes" ∨ a = "no")
    ∧ guests_accepted (raw form "guests") n
    ∧ validate_form form = Ok (∅, cleaned_with form n)
    ∧ Py.or_else (form !! "attending") "no" = a.
Proof.
  intros Hnone.
  assert (∃ a, form !! "attending" = Some a ∧ (a = "yes" ∨ a = "no")) as (a & Ha & Hyn).
  { destruct (decide (form !! "attending" = Some "yes")) as [?|Hy]; [by eauto|].
    destruct (decide (form !! "attending" = Some "no")) as [?|Hn]; [by eauto|].
    exfalso. apply (Hnone "attending"). unfold violated, attending_violated. auto 10. }
  destruct (validate_form_cases form) as [(n & Hn & Hv)|[Hg _]].
  - exists a, n. rewrite no_violation_first_checks in Hv by done.
    split; [done|]. split; [done|]. split; [done|]. split; [done|].
    rewrite Ha. by destruct Hyn as [-> | ->].
  - exfalso. apply (Hnone "guests"). unfold violated. auto 10.
Qed.

Lemma submit_accepts now form fs :
  (∀ key, ¬ violated form key) →
  ∃ a n,
    form !! "attending" = Some a ∧ (a = "yes" ∨ a = "no")
    ∧ guests_accepted (raw form "guests") n
    ∧ submit now form fs
      = (Ok (RenderTemplate "thanks.html"
               (ThanksPage (<["timestamp" := now]> (cleaned_with form n))) 200),
         Some (default header_text fs
               +:+ Csv.writerow [now; Py.strip (raw form "name"); Py.strip (raw form "email");
                                 a; Py.str n; Py.strip (raw form "note")])).
Proof.
  intros Hnone. destruct (validate_form_accepts form Hnone) as (a & n & Ha & Hyn & Hn & Hv & Hor).
  exists a, n. split; [done|]. split; [done|]. split; [done|].
  unfold submit, bind_M, lift. rewrite Hv. cbn [fst snd].
  rewrite bool_decide_eq_true_2 by done. cbn [negb].
  rewrite write_rsvp_appends by (by rewrite dom_submitted_row).
  rewrite values_of_submitted_row, Hor. done.
Qed.

(** ** The records [submit] stores can be listed *)

Lemma kept_wide r : kept r → wide r.
Proof. intros (t & name & email & a & n & note & -> & _). unfold wide. cbn. lia. Qed.

Lemma kept_fits r : kept r → Forall fits r.
Proof. by intros (t & name & email & a & n & note & _ & _ & _ & H). Qed.

Lemma small_cases n : 0 <= n <= 5 → n = 0 ∨ n = 1 ∨ n = 2 ∨ n = 3 ∨ n = 4 ∨ n = 5.
Proof. lia. Qed.

Lemma int_str_small n : 0 <= n <= 5 → Py.int int_max_str_digits (Py.str n) = Ok n.
Proof.
  intros Hn. destruct (small_cases n Hn) as [->|[->|[->|[->|[->| ->]]]]]; reflexivity.
Qed.

Lemma universal_newlines_str_small n :
  0 <= n <= 5 → TextIO.universal_newlines (Py.str n) = Py.str n.
Proof.
  intros Hn. destruct (small_cases n Hn) as [->|[->|[->|[->|[->| ->]]]]]; reflexivity.
Qed.

Lemma fits_str_small n : 0 <= n <= 5 → fits (Py.str n).
Proof.
  intros Hn. destruct (small_cases n Hn) as [->|[->|[->|[->|[->| ->]]]]]; by vm_compute.
Qed.

Lemma kept_answers b r : kept r → answers b (row_read r) ↔ answer_of r = b.
Proof.
  intros (t & name & email & a & n & note & -> & Ha & _).
  rewrite row_read_six. unfold answers, answer_of. cbn [Csv.cells].
  rewrite lookup_insert_ne, lookup_insert_ne, lookup_insert_eq by done.
  cbn [lookup list_lookup default].
  assert (TextIO.universal_newlines a = a) as -> by (by destruct Ha as [-> | ->]).
  unfold id. split; congruence.
Qed.

Lemma kept_guests r :
  kept r →
  ∃ n, 0 <= n <= 5
       ∧ Csv.cells (row_read r) !! "guests" = Some (Some (Py.str n))
       ∧ Py.int int_max_str_digits (Py.str n) = Ok n.
Proof.
  intros (t & name & email & a & n & note & -> & _ & Hn & _).
  exists n. split; [done|]. split; [|by apply int_str_small].
  rewrite row_read_six. cbn [Csv.cells].
  rewrite lookup_insert_ne, lookup_insert_eq by done.
  by rewrite universal_newlines_str_small.
Qed.

Lemma kept_listable r : kept r → listable (row_read r).
Proof.
  intros Hr. destruct (kept_guests r Hr) as (n & _ & Hcell & Hint).
  destruct Hr as (t & name & email & a & n' & note & -> & _).
  split; [|split].
  - by eexists.
  - by eexists.
  - intros _. by exists (Py.str n), n.
Qed.

Lemma kept_guests_number r : kept r → 0 <= guests_number (row_read r) <= 5.
Proof.
  intros Hr. destruct (kept_guests r Hr) as (n & Hn & Hcell & Hint).
  unfold guests_number. by rewrite Hcell, Hint.
Qed.

Lemma Zsum_bounds (l : list Z) :
  Forall (λ x, 0 <= x <= 5) l → 0 <= foldr Z.add 0 l <= 5 * Z.of_nat (length l).
Proof. induction 1; cbn [foldr length]; lia. Qed.

Lemma count_answers_kept b records :
  Forall kept records →
  count_answers b (map row_read records)
  = Z.of_nat (length (filter (λ r, answer_of r = b) records)).
Proof.
  intros Hk. unfold count_answers.
  rewrite (filter_map_pairs row_read (answers b) (λ r, answer_of r = b)).
  - by rewrite length_map.
  - eapply Forall_impl; [exact Hk|]. intros r Hr. by apply kept_answers.
Qed.

Lemma answers_kept_split records :
  Forall kept records →
  (length (filter (λ r, answer_of r = "yes") records)
   + length (filter (λ r, answer_of r = "no") records))%nat = length records.
Proof.
  induction 1 as [|r records Hr _ IH]; [done|].
  rewrite !filter_cons.
  destruct Hr as (t & name & email & a & n & note & -> & Ha & _).
  unfold answer_of at 1 3. cbn [lookup list_lookup default].
  destruct Ha as [-> | ->].
  - rewrite decide_True by done. rewrite decide_False by done. cbn [length]. lia.
  - rewrite decide_False by done. rewrite decide_True by done. cbn [length]. lia.
Qed.

(** ** The store and the handlers: further properties *)

(** X1. What [read_rsvps] returns for a store that the writer wrote, the
    header row and then any records of two fields or more whose fields are
    within the field size limit of the reader: one row for each record, in
    the order of the store, with the fields under the field names and
    every carriage return, with or without a line feed after it, read as
    one line feed. The store is left as it is. *)
Theorem read_rsvps_reads_written_rows (records : list (list string)) :
  Forall wide records →
  Forall (Forall fits) records →
  read_rsvps (store_of records)
  = (Ok (map (λ r, Csv.make_row FIELDNAMES (map TextIO.universal_newlines r)) records),
     store_of records).
Proof. apply read_rsvps_store_of. Qed.

(** X2. Writing a record and reading the store again: [write_rsvp] of a
    record over the six field names succeeds, and [read_rsvps] then
    returns the rows it returned before followed by one new row. The new
    row has no value beyond the field names; under every field name it has
    the value of the record (the empty string for a field the record does
    not have) with its line ends translated, which is the value itself
    when it has no carriage return. *)
Theorem write_rsvp_then_read_rsvps (records : list (list string))
    (record : gmap string string) :
  Forall wide records →
  Forall (Forall fits) records →
  dom record ⊆ list_to_set FIELDNAMES →
  map_Forall (λ _ value, fits value) record →
  ∃ rows fs' new,
    read_rsvps (store_of records) = (Ok rows, store_of records)
    ∧ write_rsvp record (store_of records) = (Ok tt, fs')
    ∧ read_rsvps fs' = (Ok (rows ++ [new]), fs')
    ∧ Csv.restkey new = None
    ∧ (∀ key, key ∈ FIELDNAMES →
         Csv.cells new !! key
         = Some (Some (TextIO.universal_newlines (default EmptyString (record !! key)))))
    ∧ (∀ key, key ∈ FIELDNAMES →
         no_carriage_return (default EmptyString (record !! key)) →
         Csv.cells new !! key = Some (Some (default EmptyString (record !! key)))).
Proof.
  intros Hwide Hfits Hdom Hrecord.
  exists (map row_read records), (store_of (records ++ [values_of record])),
    (row_read (values_of record)).
  split; [by apply read_rsvps_store_of|].
  split; [by apply write_rsvp_store_of|].
  split.
  { rewrite read_rsvps_store_of.
    - by rewrite map_app.
    - apply Forall_app. split; [done|]. apply Forall_singleton.
      unfold wide, values_of. rewrite length_map. cbn. lia.
    - apply Forall_app. split; [done|]. apply Forall_singleton.
      unfold values_of. apply Forall_map, Forall_forall. intros key _.
      destruct (record !! key) as [value|] eqn:Hkey; [|by vm_compute].
      exact (Hrecord key value Hkey). }
  split; [reflexivity|].
  split.
  - intros key Hkey. by apply row_read_values_of.
  - intros key Hkey Hcr. rewrite row_read_values_of by done.
    by rewrite universal_newlines_no_carriage_return.
Qed.

(** X3. [write_rsvp] of a record that has a key outside the six field
    names raises [ValueError] and writes no row: a store that exists keeps
    its text, a missing store is created with the header row alone. *)
Theorem write_rsvp_rejects_unknown_key (record : gmap string string) (key : string)
    (fs : option string) :
  key ∈ dom record →
  key ∉ FIELDNAMES →
  write_rsvp record fs = (Raise ValueError, Some (default header_text fs)).
Proof.
  intros Hin Hout. rewrite write_rsvp_unfold.
  unfold File.with_open_a, Csv.dict_writerow, Csv.dict_to_list.
  rewrite bool_decide_eq_false_2.
  - by destruct fs.
  - intros Hsub. apply Hout. apply Hsub in Hin. by apply elem_of_list_to_set in Hin.
Qed.

(** X4. A form that violates a rule is not stored: [submit] answers with
    the form page and status 400, hands the page the errors, among them
    the message of the violated rule, and the form as it was posted, and
    leaves the store untouched; a missing store stays missing. *)
Theorem submit_rejected_stores_nothing (now : string) (form : gmap string string)
    (fs : option string) (key : string) :
  violated form key →
  ∃ errors,
    submit now form fs
    = (Ok (RenderTemplate "index.html" (IndexPage (Some errors) (Some form)) 400), fs)
    ∧ errors !! key = Some (rule_message key).
Proof.
  intros Hkey.
  destruct (validate_form_errors_are_the_rules form) as (errors & cleaned & Hv & Hl).
  assert (errors !! key = Some (rule_message key)) as Herr by (by apply Hl).
  exists errors. split; [|done].
  unfold submit, bind_M, lift. rewrite Hv. cbn [fst snd].
  rewrite bool_decide_eq_false_2; [done|].
  intros ->. by rewrite lookup_empty in Herr.
Qed.

(** X5. A form that violates no rule is stored as one row: [submit]
    answers with the thanks page and status 200 and appends to the text of
    the store (the header row, when the store is missing) exactly one
    row, which is the time of the request, the trimmed name, the trimmed
    email, the answer, which is yes or no, the decimal string of the guest
    count, which is a number from 0 to 5, and the trimmed note. The record
    has exactly the six field names as keys, so no other field of the form
    reaches the store, and the time stamp is never taken from the form. *)
Theorem submit_accepted_appends_one_row (now : string) (form : gmap string string)
    (fs : option string) :
  (∀ key, ¬ violated form key) →
  ∃ record a n,
    submit now form fs
    = (Ok (RenderTemplate "thanks.html" (ThanksPage record) 200),
       Some (default header_text fs
             +:+ Csv.writerow [now; Py.strip (raw form "name"); Py.strip (raw form "email");
                               a; Py.str n; Py.strip (raw form "note")]))
    ∧ dom record = list_to_set FIELDNAMES
    ∧ record !! "timestamp" = Some now
    ∧ form !! "attending" = Some a ∧ (a = "yes" ∨ a = "no")
    ∧ Py.int int_max_str_digits (raw form "guests") = Ok n ∧ 0 <= n <= 5.
Proof.
  intros Hnone.
  destruct (submit_accepts now form fs Hnone) as (a & n & Ha & Hyn & [Hint Hn] & Hsubmit).
  exists (<["timestamp" := now]> (cleaned_with form n)), a, n.
  split; [done|]. split; [apply dom_submitted_row|].
  split; [apply lookup_insert_eq|]. done.
Qed.

(** X6. The three reading operations never change a store that exists,
    whatever its text and whether they return or raise. *)
Theorem reading_leaves_the_store (text stamp : string) :
  (read_rsvps (Some text)).2 = Some text
  ∧ (list_rsvps (Some text)).2 = Some text
  ∧ (download_rsvps stamp (Some text)).2 = Some text.
Proof.
  split; [reflexivity|].
  unfold list_rsvps, download_rsvps, bind_M. rewrite read_rsvps_present.
  destruct (Csv.dict_reader _) as [[|r rows]|e]; by split.
Qed.

(** X7. The export of a store with records serves the file as it is: the
    header row and every row as the writer wrote it, with the line ends
    of the writer, as [text/csv] under the name [rsvps_], the time of the
    request and [.csv]. *)
Theorem download_rsvps_serves_the_store (records : list (list string)) (stamp : string) :
  records ≠ [] →
  Forall wide records →
  Forall (Forall fits) records →
  download_rsvps stamp (store_of records)
  = (Ok (SendFile (header_text +:+ rows_text records) "text/csv"
           ("rsvps_" +:+ stamp +:+ ".csv")),
     store_of records).
Proof.
  intros Hne Hwide Hfits. unfold download_rsvps, bind_M.
  rewrite read_rsvps_store_of by done.
  destruct records as [|r records]; [done|]. reflexivity.
Qed.

(** X8. [submit] keeps the store a list of records of the kind it stores:
    for a form that violates no rule, with a time stamp, a name, an email
    and a note within the field size limit, the store of any records
    becomes the store of these records followed by one record of that
    kind, and a missing store becomes the store of that record. *)
Theorem submit_stores_a_kept_record (now : string) (form : gmap string string)
    (records : list (list string)) :
  (∀ key, ¬ violated form key) →
  fits now → fits (raw form "name") → fits (raw form "email") → fits (raw form "note") →
  ∃ page r,
    kept r
    ∧ submit now form (store_of records) = (Ok page, store_of (records ++ [r]))
    ∧ submit now form None = (Ok page, store_of [r]).
Proof.
  intros Hnone Hnow Hname Hemail Hnote.
  destruct (validate_form_accepts form Hnone) as (a & n & _ & Hyn & [_ Hn] & _).
  destruct (submit_accepts now form (store_of records) Hnone)
    as (a1 & n1 & Ha1 & _ & Hn1 & Hsome).
  destruct (submit_accepts now form None Hnone) as (a2 & n2 & Ha2 & Hyn2 & Hn2 & Hmissing).
  assert (a1 = a2) as -> by congruence.
  assert (n1 = n2) as -> by (by eapply guests_accepted_inj).
  destruct Hn2 as [_ Hn2].
  eexists _, _. split; [|split].
  - exists now, (Py.strip (raw form "name")), (Py.strip (raw form "email")), a2, n2,
      (Py.strip (raw form "note")).
    split; [reflexivity|]. split; [done|]. split; [done|].
    repeat constructor; try done; try by apply strip_fits.
    + destruct Hyn2 as [-> | ->]; by vm_compute.
    + by apply fits_str_small.
  - rewrite Hsome. unfold store_of. cbn [default].
    by rewrite app_comm_cons, rows_text_app.
  - rewrite Hmissing. unfold store_of. cbn [default]. do 2 f_equal.
    symmetry. apply (rows_text_app [FIELDNAMES]).
Qed.

(** X9. On a store of records of the kind [submit] stores, at least one,
    the listing never fails: it renders with status 200 the rows of the
    records in some order; its yes and no totals are the numbers of
    records that answer yes and no and add up to the number of records,
    and its guests total lies between 0 and five times the yes total. *)
Theorem list_rsvps_of_kept_records (records : list (list string)) :
  records ≠ [] →
  Forall kept records →
  ∃ shown yes no guests,
    list_rsvps (store_of records)
    = (Ok (RenderTemplate "rsvps.html"
             (RsvpsPage shown (<["yes" := yes]> (<["no" := no]> (<["guests" := guests]> ∅))))
             200),
       store_of records)
    ∧ shown ≡ₚ map row_read records
    ∧ yes = Z.of_nat (length (filter (λ r, answer_of r = "yes") records))
    ∧ no = Z.of_nat (length (filter (λ r, answer_of r = "no") records))
    ∧ yes + no = Z.of_nat (length records)
    ∧ 0 <= guests <= 5 * yes.
Proof.
  intros Hne Hkept.
  assert (read_rsvps (store_of records) = (Ok (map row_read records), store_of records))
    as Hread.
  { apply read_rsvps_store_of.
    - eapply Forall_impl; [exact Hkept|]. apply kept_wide.
    - eapply Forall_impl; [exact Hkept|]. apply kept_fits. }
  assert (Forall listable (map row_read records)) as Hl.
  { apply Forall_map. eapply Forall_impl; [exact Hkept|]. apply kept_listable. }
  destruct (list_rsvps_shows _ _ _ Hread) as (shown & Hsort & Hlist); [|done|].
  { intros H%(f_equal length). rewrite length_map in H.
    destruct records; [exact (Hne eq_refl)|discriminate H]. }
  destruct (sort_by_timestamp_desc_spec _ Hl) as (shown' & Hsort' & Hperm & _).
  assert (shown' = shown) as -> by congruence.
  exists shown, (count_answers "yes" (map row_read records)),
    (count_answers "no" (map row_read records)),
    (total_confirmed_guests (map row_read records)).
  split; [exact Hlist|]. split; [done|].
  rewrite !count_answers_kept by done.
  split; [done|]. split; [done|]. split.
  - rewrite <- (answers_kept_split records Hkept). lia.
  - unfold total_confirmed_guests.
    rewrite (filter_map_pairs row_read (answers "yes") (λ r, answer_of r = "yes")).
    2:{ eapply Forall_impl; [exact Hkept|]. intros r Hr. by apply kept_answers. }
    rewrite map_map.
    pose proof (Zsum_bounds (map (λ r, guests_number (row_read r))
                               (filter (λ r, answer_of r = "yes") records))) as Hb.
    rewrite length_map in Hb. apply Hb.
    apply Forall_map, Forall_forall. intros r [_ Hr]%list_elem_of_filter.
    apply kept_guests_number. by eapply Forall_forall in Hkept.
Qed.

(** ** The listing of any store the writer wrote *)

Lemma row_read_wide r :
  wide r →
  (∃ t, Csv.cells (row_read r) !! "timestamp" = Some (Some t))
  ∧ Csv.cells (row_read r) !! "attending" = Some (TextIO.universal_newlines <$> r !! 3%nat)
  ∧ Csv.cells (row_read r) !! "guests" = Some (TextIO.universal_newlines <$> r !! 4%nat).
Proof.
  unfold wide. intros Hlen.
  destruct r as [|f1 [|f2 [|f3 [|f4 [|f5 [|f6 [|f7 r]]]]]]]; try (cbn in Hlen; lia);
    (split; [eexists; reflexivity|split; reflexivity]).
Qed.

Lemma answers_says_yes r : wide r → answers "yes" (row_read r) ↔ says_yes r.
Proof.
  intros (_ & Ha & _)%row_read_wide. unfold answers, says_yes. rewrite Ha.
  split; [by intros [= ->]|by intros ->].
Qed.

Lemma listable_countable r : wide r → listable (row_read r) ↔ (says_yes r → countable r).
Proof.
  intros Hr. pose proof (answers_says_yes r Hr) as Hyes.
  destruct (row_read_wide r Hr) as ((t & Ht) & Ha & Hg).
  unfold listable, countable. rewrite Hyes, Hg. split.
  - intros (_ & _ & Hc) Hy. destruct (Hc Hy) as (g & n & Hcell & Hint).
    destruct (r !! 4%nat) as [g'|]; [|done]. injection Hcell as <-. by exists g', n.
  - intros Hc. split; [by exists t|]. split; [by eexists|].
    intros Hy. destruct (Hc Hy) as (g & n & -> & Hint). by eexists _, n.
Qed.

Lemma timestamps_present rows :
  Forall (λ r, ∃ t, Csv.cells r !! "timestamp" = Some (Some t)) rows →
  ∃ ks, timestamps rows = Ok (map Some ks) ∧ length ks = length rows.
Proof.
  induction 1 as [|r rows [t Ht] _ (ks & Hks & Hlen)].
  - by exists [].
  - exists (t :: ks). cbn [timestamps]. unfold getitem. rewrite Ht. rsimpl.
    rewrite Hks. rsimpl. split; [done|]. cbn [length]. by rewrite Hlen.
Qed.

(** The sort returns when every row has a time stamp, and returns the
    same rows. *)
Lemma sort_by_timestamp_desc_returns rows :
  Forall (λ r, ∃ t, Csv.cells r !! "timestamp" = Some (Some t)) rows →
  ∃ shown, sort_by_timestamp_desc rows = Ok shown ∧ shown ≡ₚ rows.
Proof.
  intros Hl. destruct (timestamps_present rows Hl) as (ks & Hks & Hlen).
  unfold sort_by_timestamp_desc. rewrite Hks. rsimpl.
  destruct (length rows <? 2)%nat; [by exists rows|].
  rewrite mapM_id_Some. eexists. split; [reflexivity|].
  rewrite sort_reverse_perm. by rewrite snd_zip by lia.
Qed.

Lemma guests_of_cases r :
  is_Some (Csv.cells r !! "guests") →
  (∃ n, guests_of r = Ok n) ∨ (∃ e, guests_of r = Raise e ∧ count_error e).
Proof.
  intros [g Hg]. unfold guests_of, getitem, count_error. rewrite Hg. rsimpl.
  destruct g as [g|]; [|right; eauto].
  destruct (Py.int int_max_str_digits g) as [n|e] eqn:Hint; [left; eauto|].
  apply int_raises_ValueError in Hint as ->. right. eauto.
Qed.

Lemma sum_where_guests_raises rows :
  Forall (λ r, is_Some (Csv.cells r !! "attending") ∧ is_Some (Csv.cells r !! "guests")) rows →
  Exists (λ r, answers "yes" r ∧ ∀ n, guests_of r ≠ Ok n) rows →
  ∃ e, sum_where "yes" guests_of rows = Raise e ∧ count_error e.
Proof.
  intros Hall Hex. induction Hex as [r rows [Hyes Hbad]|r rows _ IH].
  - apply Forall_cons in Hall as [[_ Hg] _].
    cbn [sum_where]. unfold getitem. unfold answers in Hyes. rewrite Hyes. rsimpl.
    rewrite bool_decide_eq_true_2 by done.
    destruct (guests_of_cases r Hg) as [[n Hn]|(e & He & Hce)]; [by destruct (Hbad n)|].
    exists e. by rewrite He.
  - apply Forall_cons in Hall as [[[a Ha] Hg] Hall].
    destruct (IH Hall) as (e & He & Hce).
    cbn [sum_where]. unfold getitem. rewrite Ha. rsimpl.
    destruct (bool_decide (a = Some "yes")).
    + destruct (guests_of_cases r Hg) as [[n Hn]|(e' & He' & Hce')].
      * rewrite Hn. rsimpl. rewrite He. by exists e.
      * rewrite He'. by exists e'.
    + rsimpl. rewrite He. by exists e.
Qed.

Lemma list_rsvps_raises fs rows fs' :
  read_rsvps fs = (Ok rows, fs') →
  Forall (λ r, (∃ t, Csv.cells r !! "timestamp" = Some (Some t))
               ∧ is_Some (Csv.cells r !! "attending")
               ∧ is_Some (Csv.cells r !! "guests")) rows →
  Exists (λ r, answers "yes" r ∧ ∀ n, guests_of r ≠ Ok n) rows →
  ∃ e, list_rsvps fs = (Raise e, fs') ∧ count_error e.
Proof.
  intros Hread Hall Hex.
  destruct (sort_by_timestamp_desc_returns rows) as (shown & Hsort & Hperm).
  { eapply Forall_impl; [exact Hall|]. by intros r (? & _). }
  assert (Forall (λ r, (∃ t, Csv.cells r !! "timestamp" = Some (Some t))
                       ∧ is_Some (Csv.cells r !! "attending")
                       ∧ is_Some (Csv.cells r !! "guests")) shown) as Hall'
    by by rewrite Hperm.
  assert (Exists (λ r, answers "yes" r ∧ ∀ n, guests_of r ≠ Ok n) shown) as Hex'
    by by rewrite Hperm.
  destruct (sum_where_guests_raises shown) as (e & He & Hce); [|done|].
  { eapply Forall_impl; [exact Hall'|]. by intros r (_ & ? & ?). }
  exists e. split; [|done].
  unfold list_rsvps, bind_M. rewrite Hread.
  destruct rows as [|r rows]; [by apply Exists_nil in Hex|].
  unfold lift. rewrite Hsort. rsimpl.
  rewrite (sum_where_spec "yes" (λ _, Ok 1) (λ _, 1)).
  2:{ eapply Forall_impl; [exact Hall'|]. intros x (_ & [a Ha] & _). split; [by exists a|done]. }
  rsimpl.
  rewrite (sum_where_spec "no" (λ _, Ok 1) (λ _, 1)).
  2:{ eapply Forall_impl; [exact Hall'|]. intros x (_ & [a Ha] & _). split; [by exists a|done]. }
  rsimpl. by rewrite He.
Qed.

(** X10. The listing of a store the writer wrote, with at least one
    record, all of two fields or more within the field size limit: when
    every record that answers yes has a guest count that [int] accepts,
    the listing renders with status 200 and shows the rows of the records;
    when some record answers yes and has no guest count, or one that
    [int] does not accept, the listing raises [ValueError] or [TypeError]
    and shows nothing. Records that do not answer yes never make it
    fail. *)
Theorem list_rsvps_fails_on_uncounted_guests (records : list (list string)) :
  records ≠ [] →
  Forall wide records →
  Forall (Forall fits) records →
  (Forall (λ r, says_yes r → countable r) records →
   ∃ shown totals,
     list_rsvps (store_of records)
     = (Ok (RenderTemplate "rsvps.html" (RsvpsPage shown totals) 200), store_of records)
     ∧ shown ≡ₚ map row_read records)
  ∧ (Exists (λ r, says_yes r ∧ ¬ countable r) records →
     ∃ e, list_rsvps (store_of records) = (Raise e, store_of records)
          ∧ (e = ValueError ∨ e = TypeError)).
Proof.
  intros Hne Hwide Hfits.
  split.
  - intros Hcount.
    assert (Forall listable (map row_read records)) as Hl.
    { apply Forall_map, Forall_forall. intros r Hr.
      apply listable_countable.
      - by eapply Forall_forall in Hwide.
      - by eapply Forall_forall in Hcount. }
    destruct (list_rsvps_shows _ _ _ (read_rsvps_store_of records Hwide Hfits))
      as (shown & Hsort & Hlist); [|exact Hl|].
    { intros H%(f_equal length). rewrite length_map in H.
      destruct records; [exact (Hne eq_refl)|discriminate H]. }
    destruct (sort_by_timestamp_desc_spec _ Hl) as (shown' & Hsort' & Hperm & _).
    assert (shown' = shown) as -> by congruence.
    exists shown, (totals_of (map row_read records)). split; [exact Hlist|exact Hperm].
  - intros Hex. apply (list_rsvps_raises _ _ _ (read_rsvps_store_of records Hwide Hfits)).
    + apply Forall_map, Forall_forall. intros r Hr.
      eapply Forall_forall in Hwide; [|exact Hr].
      destruct (row_read_wide r Hwide) as (Ht & Ha & Hg).
      split; [done|]. by rewrite Ha, Hg.
    + apply Exists_exists in Hex as (r & Hr & Hyes & Hbad).
      apply Exists_exists. exists (row_read r).
      split; [by apply list_elem_of_In, in_map, list_elem_of_In|].
      eapply Forall_forall in Hwide; [|exact Hr].
      split; [by apply answers_says_yes|].
      intros n Hn. apply Hbad.
      destruct (row_read_wide r Hwide) as (_ & _ & Hg).
      unfold guests_of, getitem in Hn. rewrite Hg in Hn. cbn in Hn.
      destruct (r !! 4%nat) as [g|] eqn:Hcell; [|done].
      by exists g, n.
Qed.

(** ** A field beyond the field size limit *)

Lemma fits_nil : fits EmptyString.
Proof. by vm_compute. Qed.

Lemma parse_add_char_full p c :
  fits (Csv.field p) →
  ¬ fits (Csv.field p +:+ String c EmptyString) →
  Csv.parse_add_char p c = Raise CsvError.
Proof.
  unfold fits. intros Hfit Hlong. unfold Csv.parse_add_char.
  rewrite str_length_app in Hlong. cbn [String.length] in Hlong.
  destruct (N.leb_spec Csv.FIELD_LIMIT (N.of_nat (String.length (Csv.field p))));
    [done|lia].
Qed.

(** Either the next character still fits, or the field is full. *)
Lemma fits_next acc c f :
  fits acc → ¬ fits (acc +:+ String c f) →
  (fits (acc +:+ String c EmptyString) ∧ ¬ fits ((acc +:+ String c EmptyString) +:+ f))
  ∨ ¬ fits (acc +:+ String c EmptyString).
Proof.
  intros Hacc Hlong. rewrite str_app_snoc.
  destruct (decide (fits (acc +:+ String c EmptyString))); [left|right]; done.
Qed.

Lemma read_unquoted_long got acc f rest :
  Py.str_any Csv.special f = false →
  rest ≠ EmptyString →
  fits acc → ¬ fits (acc +:+ f) →
  RR (Csv.Parser Csv.IN_FIELD got acc) (f +:+ rest) = Raise CsvError.
Proof.
  revert acc. induction f as [|c f IH]; intros acc Hs Hrest Hacc Hlong.
  - by rewrite str_app_nil_r in Hlong.
  - cbn [Py.str_any] in Hs. apply orb_false_iff in Hs as [Hc Hs].
    destruct (special_false c Hc) as (Hdelim & _ & Hnl & Hlf).
    rewrite str_app_cons, read_records_char by auto using str_app_nonempty_r.
    unfold Csv.parse_process_char. cbn [Csv.st]. rewrite Hnl, Hdelim.
    destruct (fits_next acc c f Hacc Hlong) as [[Hnext Hlong']|Hfull].
    + rewrite parse_add_char_ok by done. rsimpl. by apply IH.
    + by rewrite parse_add_char_full.
Qed.

Lemma read_quoted_long got acc f rest :
  rest ≠ EmptyString →
  fits acc → ¬ fits (acc +:+ f) →
  RR (Csv.Parser Csv.IN_QUOTED_FIELD got acc) (Csv.double_quotes f +:+ rest) = Raise CsvError.
Proof.
  revert acc. induction f as [|c f IH]; intros acc Hrest Hacc Hlong.
  - by rewrite str_app_nil_r in Hlong.
  - assert (Csv.double_quotes f +:+ rest ≠ EmptyString) as Hne
      by by apply str_app_nonempty_r.
    assert ((p ← Csv.parse_add_char (Csv.Parser Csv.IN_QUOTED_FIELD got acc) c;
             RR (Csv.Parser Csv.IN_QUOTED_FIELD (Csv.fields p) (Csv.field p))
                (Csv.double_quotes f +:+ rest))
            = Raise CsvError) as Hadd.
    { destruct (fits_next acc c f Hacc Hlong) as [[Hnext Hlong']|Hfull].
      - rewrite parse_add_char_ok by done. rsimpl. cbn [Csv.fields Csv.field]. by apply IH.
      - by rewrite parse_add_char_full. }
    cbn [Csv.double_quotes].
    destruct (Ascii.eqb c Py.DQUOTE) eqn:Hq.
    + apply Ascii.eqb_eq in Hq as ->.
      rewrite !str_app_cons.
      rewrite read_records_char by done.
      rewrite process_closing_quote. rsimpl.
      rewrite read_records_char by done.
      unfold Csv.parse_process_char at 1. cbn [Csv.st]. rewrite Ascii.eqb_refl.
      destruct (Csv.parse_add_char (Csv.Parser Csv.QUOTE_IN_QUOTED_FIELD got acc) Py.DQUOTE)
        as [p|e] eqn:Hp;
        unfold Csv.parse_add_char in Hp, Hadd; cbn [Csv.field Csv.st Csv.fields] in Hp, Hadd;
        destruct (Csv.FIELD_LIMIT <=? N.of_nat (String.length acc))%N;
        try discriminate Hp.
      * injection Hp as <-. rsimpl. unfold Csv.set_state. exact Hadd.
      * injection Hp as <-. done.
    + rewrite str_app_cons.
      destruct (Ascii.eqb c Py.LF) eqn:Hlf.
      * apply Ascii.eqb_eq in Hlf.
        rewrite read_records_line_feed by done.
        rewrite process_in_quoted_char by done.
        destruct (Csv.parse_add_char (Csv.Parser Csv.IN_QUOTED_FIELD got acc) c)
          as [p|e] eqn:Hp; [|exact Hadd].
        revert Hadd. rsimpl. intros Hadd.
        unfold Csv.parse_add_char in Hp.
        destruct (Csv.FIELD_LIMIT <=? _)%N; [discriminate Hp|]. injection Hp as <-.
        rewrite process_in_quoted_eol. rsimpl. cbn [Csv.st].
        rewrite bool_decide_eq_false_2 by done. exact Hadd.
      * apply Ascii.eqb_neq in Hlf.
        rewrite read_records_char by done.
        rewrite process_in_quoted_char by done.
        destruct (Csv.parse_add_char (Csv.Parser Csv.IN_QUOTED_FIELD got acc) c)
          as [p|e] eqn:Hp; [|exact Hadd].
        revert Hadd. rsimpl. intros Hadd.
        unfold Csv.parse_add_char in Hp.
        destruct (Csv.FIELD_LIMIT <=? _)%N; [discriminate Hp|]. injection Hp as <-.
        exact Hadd.
Qed.

(** A field that does not fit makes the reader raise, whatever follows
    it. *)
Lemma read_field_long s got q g rest :
  fresh s →
  (q = false → Py.str_any Csv.special g = false) →
  ¬ fits g →
  rest ≠ EmptyString →
  RR (Csv.Parser s got EmptyString) (field_text q g +:+ rest) = Raise CsvError.
Proof.
  intros Hs Hq Hlong Hrest. destruct q; cbn [field_text].
  - rewrite str_app_cons, str_app_snoc.
    rewrite read_records_char by auto using str_app_nonempty_r.
    rewrite process_fresh_quote by done. rsimpl.
    apply read_quoted_long; [done|apply fits_nil|by rewrite str_app_nil_l].
  - specialize (Hq eq_refl). destruct g as [|c g]; [by destruct Hlong; apply fits_nil|].
    cbn [Py.str_any] in Hq. apply orb_false_iff in Hq as [Hc Hg].
    destruct (special_false c Hc) as (_ & _ & _ & Hlf).
    rewrite str_app_cons.
    rewrite read_records_char by auto using str_app_nonempty_r.
    rewrite process_fresh_char by done. rsimpl.
    apply read_unquoted_long; [done..| |done]. by vm_compute.
Qed.

Lemma read_fields_long s got good bad after rest :
  fresh s →
  Forall readable good →
  (bad.1 = false → Py.str_any Csv.special bad.2 = false) →
  ¬ fits bad.2 →
  RR (Csv.Parser s got EmptyString) (fields_text (good ++ bad :: after) +:+ String Py.LF rest)
  = Raise CsvError.
Proof.
  intros Hs Hgood Hq Hlong. revert s got Hs.
  induction Hgood as [|f good [Hfq Hfit] _ IH]; intros s got Hs.
  - cbn [app]. destruct after as [|f' after].
    + cbn [fields_text]. by apply read_field_long.
    + change (fields_text (bad :: f' :: after))
        with (field_text bad.1 bad.2 +:+ String Csv.DELIMITER (fields_text (f' :: after))).
      rewrite str_app_assoc. by apply read_field_long.
  - assert (∃ f' tail, good ++ bad :: after = f' :: tail) as (f' & tail & Htail).
    { destruct good; cbn [app]; eauto. }
    cbn [app]. rewrite Htail.
    change (fields_text (f :: f' :: tail))
      with (field_text f.1 f.2 +:+ String Csv.DELIMITER (fields_text (f' :: tail))).
    rewrite str_app_assoc, str_app_cons.
    rewrite read_field_delimiter; [|done..|].
    2:{ by apply str_app_nonempty_r. }
    rewrite <- Htail. apply IH. unfold fresh. auto.
Qed.

Lemma read_lines_long before good bad after later :
  Forall (λ r, (2 ≤ length r)%nat ∧ Forall readable r) before →
  Forall readable good →
  (bad.1 = false → Py.str_any Csv.special bad.2 = false) →
  ¬ fits bad.2 →
  RR Csv.parse_reset (lines_text (before ++ (good ++ bad :: after) :: later))
  = Raise CsvError.
Proof.
  intros Hbefore Hgood Hq Hlong.
  induction Hbefore as [|r before [Hlen Hr] _ IH].
  - cbn [app lines_text foldr]. apply read_fields_long; [unfold fresh; auto|done..].
  - cbn [app lines_text foldr]. rewrite read_record by done.
    fold (lines_text (before ++ (good ++ bad :: after) :: later)). by rewrite IH.
Qed.

Lemma as_read_plain f :
  (as_read f).1 = false → Py.str_any Csv.special (as_read f).2 = false.
Proof.
  unfold as_read. cbn [fst snd]. intros Hplain.
  by rewrite universal_newlines_from, newlines_from_plain.
Qed.

Lemma wide_readable records :
  Forall wide records →
  Forall (Forall fits) records →
  Forall (λ r, (2 ≤ length r)%nat ∧ Forall readable r) (map (map as_read) records).
Proof.
  intros Hwide Hfits.
  induction Hwide as [|r records Hr _ IH]; [constructor|].
  apply Forall_cons in Hfits as [Hf Hfits].
  cbn [map]. constructor; [|by apply IH]. split.
  - by rewrite length_map.
  - clear -Hf. induction Hf; constructor; [by apply as_read_readable|done].
Qed.

(** The store with a record that has a field beyond the limit, between
    any records before it and any records after it. *)
Lemma read_rsvps_long before good f after later :
  Forall wide before →
  Forall (Forall fits) before →
  Forall fits good →
  ¬ fits (TextIO.universal_newlines f) →
  wide (good ++ f :: after) →
  Forall wide later →
  read_rsvps (store_of (before ++ (good ++ f :: after) :: later))
  = (Raise CsvError, store_of (before ++ (good ++ f :: after) :: later)).
Proof.
  intros Hbefore Hfits Hgood Hlong Hwide Hlater.
  unfold store_of. rewrite read_rsvps_present. f_equal.
  unfold Csv.dict_reader, Csv.reader.
  rewrite universal_newlines_from, newlines_rows_text.
  2:{ constructor; [apply wide_FIELDNAMES|].
      apply Forall_app. split; [done|]. by constructor. }
  rewrite app_comm_cons, map_app. cbn [map]. rewrite (map_app as_read). cbn [map].
  rewrite read_lines_long; [done| | | |].
  - apply (wide_readable (FIELDNAMES :: before));
      constructor; auto using wide_FIELDNAMES, fits_FIELDNAMES.
  - clear -Hgood. induction Hgood; constructor; [by apply as_read_readable|done].
  - apply as_read_plain.
  - done.
Qed.

Lemma handlers_raise_with_read_rsvps fs e fs' stamp :
  read_rsvps fs = (Raise e, fs') →
  list_rsvps fs = (Raise e, fs') ∧ download_rsvps stamp fs = (Raise e, fs').
Proof. intros Hread. unfold list_rsvps, download_rsvps, bind_M. by rewrite Hread. Qed.

(** X11. A note beyond the field size limit of the reader breaks the
    store for good. A form that violates no rule and whose trimmed note,
    as it is read back, is longer than the limit of 131072 characters is
    accepted and stored as a record; from then on, whatever records are
    appended after it, [read_rsvps], the listing and the export raise the
    error of the reader and return nothing. *)
Theorem long_note_breaks_the_store (now : string) (form : gmap string string)
    (records : list (list string)) :
  Forall wide records →
  Forall (Forall fits) records →
  (∀ key, ¬ violated form key) →
  fits now → fits (raw form "name") → fits (raw form "email") →
  ¬ fits (TextIO.universal_newlines (Py.strip (raw form "note"))) →
  ∃ page r,
    submit now form (store_of records) = (Ok page, store_of (records ++ [r]))
    ∧ ∀ later stamp,
        Forall wide later →
        read_rsvps (store_of (records ++ r :: later))
        = (Raise CsvError, store_of (records ++ r :: later))
        ∧ list_rsvps (store_of (records ++ r :: later))
          = (Raise CsvError, store_of (records ++ r :: later))
        ∧ download_rsvps stamp (store_of (records ++ r :: later))
          = (Raise CsvError, store_of (records ++ r :: later)).
Proof.
  intros Hwide Hfits Hnone Hnow Hname Hemail Hlong.
  destruct (submit_accepts now form (store_of records) Hnone)
    as (a & n & Ha & Hyn & [_ Hn] & Hsubmit).
  eexists _, _. split.
  { rewrite Hsubmit. unfold store_of. cbn [default].
    by rewrite app_comm_cons, rows_text_app. }
  intros later stamp Hlater.
  assert (read_rsvps
            (store_of (records ++ [now; Py.strip (raw form "name"); Py.strip (raw form "email");
                                   a; Py.str n; Py.strip (raw form "note")] :: later))
          = (Raise CsvError,
             store_of (records ++ [now; Py.strip (raw form "name"); Py.strip (raw form "email");
                                   a; Py.str n; Py.strip (raw form "note")] :: later)))
    as Hread.
  { apply (read_rsvps_long records
             [now; Py.strip (raw form "name"); Py.strip (raw form "email"); a; Py.str n]
             (Py.strip (raw form "note")) [] later); try done.
    - repeat constructor; try done; try by apply strip_fits.
      + destruct Hyn as [-> | ->]; by vm_compute.
      + by apply fits_str_small.
    - unfold wide. cbn. lia. }
  split; [exact Hread|].
  exact (handlers_raise_with_read_rsvps _ _ _ stamp Hread).
Qed.

End App.

(** ** The statements above on concrete inputs

    The interpreter runs with the default limit of 4300 digits. *)

Definition default_max_str_digits : nat := 4300.

(** The guest counts of the specification: 7 parses but is out of range,
    abc does not parse, 5 parses and is in range. *)
Example int_examples :
  Py.int default_max_str_digits "7" = Ok 7
  ∧ Py.int default_max_str_digits "abc" = Raise ValueError
  ∧ Py.int default_max_str_digits "5" = Ok 5
  ∧ Py.str 5 = "5" ∧ Py.str 0 = "0".
Proof. vm_compute. repeat split; reflexivity. Qed.

(** A form whose answer is the empty string: the field is present, and the
    cleaned answer is not the value of the field. *)
Definition empty_answer_form : gmap string string :=
  {[ "name" := "Ann Lee"; "email" := "ann@example.org"; "attending" := EmptyString;
     "guests" := "2"; "note" := "hello" ]}.

(** C3 as stated fails: the answer field is present with the empty string as
    its value, and the cleaned answer is not that value but ["no"]. *)
Lemma cleaned_answer_differs_from_present_field :
  ∃ errors cleaned,
    validate_form default_max_str_digits empty_answer_form = Ok (errors, cleaned)
    ∧ empty_answer_form !! "attending" = Some EmptyString
    ∧ cleaned !! "attending" = Some "no"
    ∧ cleaned !! "attending" ≠ empty_answer_form !! "attending".
Proof.
  assert (match validate_form default_max_str_digits empty_answer_form with
          | Ok (_, cleaned) => cleaned !! "attending" = Some "no"
          | Raise _ => False
          end) as H.
  { vm_compute. reflexivity. }
  destruct (validate_form default_max_str_digits empty_answer_form)
    as [[errors cleaned]|e]; [|destruct H].
  exists errors, cleaned.
  split; [reflexivity|]. split; [vm_compute; reflexivity|]. split; [exact H|].
  rewrite H. vm_compute. discriminate.
Qed.

(** The three records of the aggregate scenario; the last two share their
    time stamp. *)
Definition scenario_record (timestamp name attending guests : string) : gmap string string :=
  {[ "timestamp" := timestamp; "name" := name; "email" := "guest@example.org";
     "attending" := attending; "guests" := guests; "note" := EmptyString ]}.

Definition scenario_store : option string :=
  let fs := (write_rsvp (scenario_record "2024-07-01T10:00:00" "Ann" "yes" "2") None).2 in
  let fs := (write_rsvp (scenario_record "2024-07-02T09:30:00" "Bob" "no" "3") fs).2 in
  (write_rsvp (scenario_record "2024-07-02T09:30:00" "Cyd" "yes" "1") fs).2.

Definition scenario_rows : list Csv.row :=
  match (read_rsvps scenario_store).1 with
  | Ok rows => rows
  | Raise _ => []
  end.

Lemma scenario_rows_read : read_rsvps scenario_store = (Ok scenario_rows, scenario_store).
Proof. vm_compute. reflexivity. Qed.

Lemma scenario_rows_listable : Forall (listable default_max_str_digits) scenario_rows.
Proof. apply forallb_listable. vm_compute. reflexivity. Qed.

Definition names_of (rows : list Csv.row) : list (option (option string)) :=
  map (λ r, Csv.cells r !! "name") rows.

(** The totals of the scenario: two rows answer yes, one answers no, and the
    guests of the yes rows are 2 + 1; the 3 guests of the no row do not
    count. *)
Lemma list_rsvps_totals_scenario :
  ∃ shown totals,
    list_rsvps default_max_str_digits scenario_store
    = (Ok (RenderTemplate "rsvps.html" (RsvpsPage shown totals) 200), scenario_store)
    ∧ totals !! "yes" = Some 2
    ∧ totals !! "no" = Some 1
    ∧ totals !! "guests" = Some 3.
Proof.
  destruct (list_rsvps_totals default_max_str_digits scenario_store scenario_rows
              scenario_store scenario_rows_read)
    as (shown & totals & Hshow & Hyes & Hno & Hguests).
  - intros H%(f_equal length). vm_compute in H. discriminate.
  - exact scenario_rows_listable.
  - exists shown, totals. split; [exact Hshow|].
    rewrite Hyes, Hno, Hguests. vm_compute. repeat split; reflexivity.
Defined.

(** The order of the scenario: the two rows of the later time stamp come
    first, Bob before Cyd as in the store, then Ann. *)
Lemma list_rsvps_order_scenario :
  ∃ shown totals,
    list_rsvps default_max_str_digits scenario_store
    = (Ok (RenderTemplate "rsvps.html" (RsvpsPage shown totals) 200), scenario_store)
    ∧ shown ≡ₚ scenario_rows
    ∧ StronglySorted newer_or_equal shown
    ∧ ∀ t, filter (stamped t) shown = filter (stamped t) scenario_rows.
Proof.
  apply (list_rsvps_order default_max_str_digits scenario_store scenario_rows
           scenario_store scenario_rows_read).
  - intros H%(f_equal length). vm_compute in H. discriminate.
  - exact scenario_rows_listable.
Defined.

Example list_rsvps_scenario_names :
  match (list_rsvps default_max_str_digits scenario_store).1 with
  | Ok (RenderTemplate _ (RsvpsPage shown _) _) =>
      names_of shown = [Some (Some "Bob"); Some (Some "Cyd"); Some (Some "Ann")]
  | _ => False
  end.
Proof. vm_compute. reflexivity. Qed.

(** A form whose note has a line break as a browser sends it, carriage
    return and line feed. *)
Definition two_line_note : string :=
  String "a" (String Py.CR (String Py.LF (String "b" EmptyString))).

Definition two_line_form : gmap string string :=
  {[ "name" := "Ann Lee"; "email" := "ann@example.org"; "attending" := "yes";
     "guests" := "2"; "note" := two_line_note ]}.

(** C4 on that form: the submission is accepted and its record appended
    with the note as submitted, and [read_rsvps] returns the record with
    another note, the carriage return gone. *)
Theorem appended_note_is_read_back_changed :
  ∃ record fs row,
    submit default_max_str_digits "2024-07-01T10:00:00" two_line_form None
    = (Ok (RenderTemplate "thanks.html" (ThanksPage record) 200), fs)
    ∧ write_rsvp record None = (Ok tt, fs)
    ∧ record !! "note" = Some two_line_note
    ∧ read_rsvps fs = (Ok [row], fs)
    ∧ Csv.cells row !! "note" = Some (Some (String "a" (String Py.LF (String "b" EmptyString))))
    ∧ Csv.cells row !! "note" ≠ Some (record !! "note").
Proof.
  assert (match submit default_max_str_digits "2024-07-01T10:00:00" two_line_form None with
          | (Ok (RenderTemplate template (ThanksPage record) status), fs) =>
              template = "thanks.html" ∧ status = 200%nat
              ∧ (write_rsvp record None).1 = Ok tt
              ∧ (write_rsvp record None).2 = fs
              ∧ record !! "note" = Some two_line_note
              ∧ match read_rsvps fs with
                | (Ok [row], fs') =>
                    fs' = fs
                    ∧ Csv.cells row !! "note"
                      = Some (Some (String "a" (String Py.LF (String "b" EmptyString))))
                | _ => False
                end
          | _ => False
          end) as H.
  { vm_compute. repeat split; reflexivity. }
  destruct (submit default_max_str_digits "2024-07-01T10:00:00" two_line_form None)
    as [[[template [errs fd|record|rows totals] status|data mt dn]|e] fs];
    try (exfalso; exact H).
  destruct H as (-> & -> & Hok & Hfs & Hnote & H).
  destruct (read_rsvps fs) as [[[|row [|row' rows]]|e] fs'] eqn:Hread;
    try (exfalso; exact H).
  destruct H as [-> Hrow].
  exists record, fs, row.
  split; [reflexivity|]. split.
  { destruct (write_rsvp record None) as [r fs0]. cbn in Hok, Hfs. by subst. }
  split; [exact Hnote|]. split; [exact Hread|]. split; [exact Hrow|].
  rewrite Hrow, Hnote. vm_compute. discriminate.
Qed.

(** ** The further properties on concrete inputs *)

(** Two records as [submit] stores them; the note of the first has a comma
    and a quote, so the writer quotes it. *)
Definition example_records : list (list string) :=
  [ ["2024-07-01T10:00:00"; "Ann Lee"; "ann@example.org"; "yes"; "2";
     String "h" (String "i" (String "," (String Py.DQUOTE (String "!" EmptyString))))];
    ["2024-07-02T09:30:00"; "Bob Ray"; "bob@example.org"; "no"; "0"; EmptyString] ].

(** A record over the six field names. *)
Definition example_record : gmap string string :=
  scenario_record "2024-07-03T08:00:00" "Cyd" "yes" "1".

(** A record with a key that is no field name. *)
Definition unknown_key_record : gmap string string :=
  {[ "name" := "Ann Lee"; "table" := "7" ]}.

(** A form that violates no rule; the guest count is spelled with blanks
    and a sign. *)
Definition valid_form : gmap string string :=
  {[ "name" := "  Ann Lee "; "email" := "ann@example.org"; "attending" := "yes";
     "guests" := " +2 "; "note" := "see you"; "timestamp" := "1999-01-01T00:00:00" ]}.

(** A note of 131073 characters, one more than the reader takes. *)
Definition long_note : string :=
  String.string_of_list_ascii (repeat "x"%char (N.to_nat 131073)).

Definition long_note_form : gmap string string :=
  {[ "name" := "Ann Lee"; "email" := "ann@example.org"; "attending" := "yes";
     "guests" := "2"; "note" := long_note ]}.

(** A record that answers yes and has a guest count that is no number. *)
Definition uncounted_records : list (list string) :=
  [ ["2024-07-01T10:00:00"; "Ann Lee"; "ann@example.org"; "yes"; "two"; EmptyString] ].

Lemma example_records_wide : Forall wide example_records.
Proof. repeat constructor. Qed.

Lemma example_records_fit : Forall (Forall fits) example_records.
Proof. repeat constructor; by vm_compute. Qed.

Lemma example_records_kept : Forall kept example_records.
Proof.
  repeat constructor.
  - eexists _, _, _, _, 2, _. split; [reflexivity|]. split; [by left|]. split; [lia|].
    repeat constructor; by vm_compute.
  - eexists _, _, _, _, 0, _. split; [reflexivity|]. split; [by right|]. split; [lia|].
    repeat constructor; by vm_compute.
Qed.

Lemma valid_form_violates_nothing key : ¬ violated default_max_str_digits valid_form key.
Proof.
  intros [[_ H]|[[_ H]|[[_ H]|[_ H]]]].
  - vm_compute in H. lia.
  - vm_compute in H. discriminate H.
  - destruct H as [H _]. apply H. vm_compute. reflexivity.
  - apply (H 2). split; [vm_compute; reflexivity|lia].
Qed.

Lemma long_note_form_violates_nothing key :
  ¬ violated default_max_str_digits long_note_form key.
Proof.
  intros [[_ H]|[[_ H]|[[_ H]|[_ H]]]].
  - vm_compute in H. lia.
  - vm_compute in H. discriminate H.
  - destruct H as [H _]. apply H. vm_compute. reflexivity.
  - apply (H 2). split; [vm_compute; reflexivity|lia].
Qed.

Lemma long_note_does_not_fit :
  ¬ fits (TextIO.universal_newlines (Py.strip (raw long_note_form "note"))).
Proof. vm_compute. intros H. apply H. reflexivity. Qed.

(** X1 on the example records: both come back, the note of the first as it
    was written. *)
Lemma read_rsvps_reads_written_rows_example :
  read_rsvps (store_of example_records)
  = (Ok (map (λ r, Csv.make_row FIELDNAMES (map TextIO.universal_newlines r)) example_records),
     store_of example_records).
Proof.
  apply read_rsvps_reads_written_rows;
    [exact example_records_wide|exact example_records_fit].
Defined.

Lemma example_record_over_the_fields : dom example_record ⊆ list_to_set FIELDNAMES.
Proof. apply (bool_decide_unpack _). vm_compute. reflexivity. Qed.

Lemma example_record_fits : map_Forall (λ _ value, fits value) example_record.
Proof.
  intros key value Hkey.
  assert (value ∈ ["2024-07-03T08:00:00"; "Cyd"; "guest@example.org"; "yes"; "1"; EmptyString])
    as Hvalue.
  { unfold example_record, scenario_record in Hkey.
    repeat (apply lookup_insert_Some in Hkey as [[_ <-]|[_ Hkey]]; [set_solver|]).
    apply lookup_singleton_Some in Hkey as [_ <-]. set_solver. }
  rewrite !elem_of_cons, elem_of_nil in Hvalue.
  destruct Hvalue as [->|[->|[->|[->|[->|[->|[]]]]]]]; by vm_compute.
Qed.

(** X2 on the example records and one more record. *)
Lemma write_rsvp_then_read_rsvps_example :
  ∃ rows fs' new,
    read_rsvps (store_of example_records) = (Ok rows, store_of example_records)
    ∧ write_rsvp example_record (store_of example_records) = (Ok tt, fs')
    ∧ read_rsvps fs' = (Ok (rows ++ [new]), fs')
    ∧ Csv.restkey new = None
    ∧ (∀ key, key ∈ FIELDNAMES →
         Csv.cells new !! key
         = Some (Some (TextIO.universal_newlines
                         (default EmptyString (example_record !! key)))))
    ∧ (∀ key, key ∈ FIELDNAMES →
         no_carriage_return (default EmptyString (example_record !! key)) →
         Csv.cells new !! key = Some (Some (default EmptyString (example_record !! key)))).
Proof.
  apply write_rsvp_then_read_rsvps;
    [exact example_records_wide|exact example_records_fit
    |exact example_record_over_the_fields|exact example_record_fits].
Defined.

(** X3 on a record with the key [table]. *)
Lemma write_rsvp_rejects_unknown_key_example :
  write_rsvp unknown_key_record (store_of example_records)
  = (Raise ValueError, Some (default header_text (store_of example_records))).
Proof.
  apply (write_rsvp_rejects_unknown_key unknown_key_record "table").
  - apply (bool_decide_unpack _). vm_compute. reflexivity.
  - apply (bool_decide_unpack _). vm_compute. reflexivity.
Defined.

Lemma empty_answer_form_violates : violated default_max_str_digits empty_answer_form "attending".
Proof.
  right. right. left. split; [reflexivity|].
  split; intros H; vm_compute in H; discriminate H.
Qed.

(** X4 on the form with the empty answer and a missing store. *)
Lemma submit_rejected_stores_nothing_example :
  ∃ errors,
    submit default_max_str_digits "2024-07-01T10:00:00" empty_answer_form None
    = (Ok (RenderTemplate "index.html" (IndexPage (Some errors) (Some empty_answer_form)) 400),
       None)
    ∧ errors !! "attending" = Some (rule_message "attending").
Proof.
  apply submit_rejected_stores_nothing. exact empty_answer_form_violates.
Defined.

(** X5 on the valid form: the time stamp of the form is not stored. *)
Lemma submit_accepted_appends_one_row_example :
  ∃ record a n,
    submit default_max_str_digits "2024-07-01T10:00:00" valid_form None
    = (Ok (RenderTemplate "thanks.html" (ThanksPage record) 200),
       Some (default header_text None
             +:+ Csv.writerow ["2024-07-01T10:00:00"; Py.strip (raw valid_form "name");
                               Py.strip (raw valid_form "email"); a; Py.str n;
                               Py.strip (raw valid_form "note")]))
    ∧ dom record = list_to_set FIELDNAMES
    ∧ record !! "timestamp" = Some "2024-07-01T10:00:00"
    ∧ valid_form !! "attending" = Some a ∧ (a = "yes" ∨ a = "no")
    ∧ Py.int default_max_str_digits (raw valid_form "guests") = Ok n ∧ 0 <= n <= 5.
Proof.
  apply submit_accepted_appends_one_row. exact valid_form_violates_nothing.
Defined.

(** X7 on the example records. *)
Lemma download_rsvps_serves_the_store_example :
  download_rsvps "20240703080000" (store_of example_records)
  = (Ok (SendFile (header_text +:+ rows_text example_records) "text/csv"
           ("rsvps_" +:+ "20240703080000" +:+ ".csv")),
     store_of example_records).
Proof.
  apply download_rsvps_serves_the_store;
    [discriminate|exact example_records_wide|exact example_records_fit].
Defined.

(** X8 on the valid form and the example records. *)
Lemma submit_stores_a_kept_record_example :
  ∃ page r,
    kept r
    ∧ submit default_max_str_digits "2024-07-03T08:00:00" valid_form (store_of example_records)
      = (Ok page, store_of (example_records ++ [r]))
    ∧ submit default_max_str_digits "2024-07-03T08:00:00" valid_form None
      = (Ok page, store_of [r]).
Proof.
  apply submit_stores_a_kept_record;
    [exact valid_form_violates_nothing|by vm_compute..].
Defined.

(** X9 on the example records. *)
Lemma list_rsvps_of_kept_records_example :
  ∃ shown yes no guests,
    list_rsvps default_max_str_digits (store_of example_records)
    = (Ok (RenderTemplate "rsvps.html"
             (RsvpsPage shown (<["yes" := yes]> (<["no" := no]> (<["guests" := guests]> ∅))))
             200),
       store_of example_records)
    ∧ shown ≡ₚ map row_read example_records
    ∧ yes = Z.of_nat (length (filter (λ r, answer_of r = "yes") example_records))
    ∧ no = Z.of_nat (length (filter (λ r, answer_of r = "no") example_records))
    ∧ yes + no = Z.of_nat (length example_records)
    ∧ 0 <= guests <= 5 * yes.
Proof.
  apply list_rsvps_of_kept_records; [discriminate|exact example_records_kept].
Defined.

Lemma uncounted_records_fit : Forall (Forall fits) uncounted_records.
Proof. repeat constructor; by vm_compute. Qed.

Lemma uncounted_record_is_uncounted :
  Exists (λ r, says_yes r ∧ ¬ countable default_max_str_digits r) uncounted_records.
Proof.
  apply Exists_cons_hd. split; [reflexivity|].
  intros (g & n & [= <-] & Hint). vm_compute in Hint. discriminate Hint.
Qed.

(** X10 on a store with one record that answers yes with the guest count
    [two]: the listing raises. *)
Lemma list_rsvps_fails_on_uncounted_guests_example :
  ∃ e, list_rsvps default_max_str_digits (store_of uncounted_records)
       = (Raise e, store_of uncounted_records)
       ∧ (e = ValueError ∨ e = TypeError).
Proof.
  apply (list_rsvps_fails_on_uncounted_guests default_max_str_digits uncounted_records);
    [discriminate|repeat constructor|exact uncounted_records_fit
    |exact uncounted_record_is_uncounted].
Defined.

(** X11 on the form with the long note and the store with the header row
    alone. *)
Lemma long_note_breaks_the_store_example :
  ∃ page r,
    submit default_max_str_digits "2024-07-03T08:00:00" long_note_form (store_of [])
    = (Ok page, store_of ([] ++ [r]))
    ∧ ∀ later stamp,
        Forall wide later →
        read_rsvps (store_of ([] ++ r :: later))
        = (Raise CsvError, store_of ([] ++ r :: later))
        ∧ list_rsvps default_max_str_digits (store_of ([] ++ r :: later))
          = (Raise CsvError, store_of ([] ++ r :: later))
        ∧ download_rsvps stamp (store_of ([] ++ r :: later))
          = (Raise CsvError, store_of ([] ++ r :: later)).
Proof.
  apply long_note_breaks_the_store;
    [constructor|constructor|exact long_note_form_violates_nothing
    |by vm_compute|by vm_compute|by vm_compute|exact long_note_does_not_fit].
Defined.
